(** * usb3_pipe: ordered-set checker and generator, LFPS burst clock

    A shallow embedding of [usb3_pipe/ordered_set.py] (the Migen modules
    [OrderedSetChecker], [OrderedSetGenerator] and the constructor of
    [OrderedSetUnit]) and of the measuring loop of [test/test_lfps.py].

    A Migen module is a synchronous circuit: its [comb] statements define
    wires as functions of the registers and the inputs of the current clock
    cycle, its [sync] statements give the next value of every register.
    Each module is therefore a record of registers, one function per wire
    and one [tick] function from registers and inputs to registers. *)

From Stdlib Require Import ZArith QArith Qabs List Bool Lia.
From stdpp Require Import base list strings gmap.

Local Open Scope Z_scope.

(** ** Migen signals *)

Module Migen.

(** [bits_for n] for an unsigned [n]: the number of bits of the widest value
    a [Signal(max=n+1)] holds. *)
Definition bits_for (n : Z) : Z :=
  if 0 <? n then Z.log2_up (n + 1) else 1.

(** Assigning to a [w]-bit unsigned signal keeps the low [w] bits. *)
Definition wrap (w : Z) (v : Z) : Z := v mod 2 ^ w.

(** Width of [Signal(max=m)]. *)
Definition width_max (m : Z) : Z := bits_for (m - 1).

(** [sig[lo:hi].eq(v)] on a wire whose other bits carry [old]. *)
Definition assign_slice (lo hi : Z) (old v : Z) : Z :=
  Z.lor (Z.ldiff old (Z.shiftl (Z.ones (hi - lo)) lo))
        (Z.shiftl (Z.land v (Z.ones (hi - lo))) lo).

Definition b2z (b : bool) : Z := if b then 1 else 0.

End Migen.

(** ** Ordered sets

    [usb3_pipe.common] is imported by the module, its tables are taken as a
    parameter: an ordered set is a name and the bytes [to_bytes()] yields. *)

Record ordered_set := OrderedSet {
  name : string;
  to_bytes : list Byte.byte
}.

(** [int.from_bytes(bs, "little")] *)
Definition from_bytes_little (bs : list Byte.byte) : Z :=
  foldr (fun b acc => Z.of_N (Byte.to_N b) + 256 * acc) 0 bs.

Definition mem_depth (os : ordered_set) : nat :=
  (length (to_bytes os) / 4)%nat.

Definition mem_init (os : ordered_set) : list Z :=
  map (fun i => from_bytes_little (take 4 (drop (4 * i) (to_bytes os))))
      (seq 0 (mem_depth os)).

(** [ordered_set.name in ["TS1", "TS2"]] *)
Definition is_training (os : ordered_set) : bool :=
  String.eqb (name os) "TS1" || String.eqb (name os) "TS2".

Definition first_ctrl (os : ordered_set) : Z :=
  if is_training os then 2 ^ 4 - 1 else 1.

(** Asynchronous read port of the pattern memory: [port.dat_r]. A read past
    the last word yields 0; the cursor never gets there. *)
Definition dat_r (os : ordered_set) (adr : Z) : Z :=
  default 0 (mem_init os !! Z.to_nat adr).

(** Next value of [port.adr] when the cursor advances. *)
Definition adr_next (os : ordered_set) (adr : Z) : Z :=
  if adr =? Z.of_nat (mem_depth os) - 1 then 0
  else Migen.wrap (Migen.width_max (Z.of_nat (mem_depth os))) (adr + 1).

(** Sample tables for the three ordered sets, with the symbol values of the
    USB 3.0 standard (K28.5 = 0xBC, D10.2 = 0x4A, D5.2 = 0x45). *)
Definition TS1 : ordered_set :=
  OrderedSet "TS1"
    (Byte.xbc :: Byte.xbc :: Byte.xbc :: Byte.xbc ::
     Byte.x00 :: Byte.x00 :: Byte.x4a :: Byte.x4a ::
     Byte.x4a :: Byte.x4a :: Byte.x4a :: Byte.x4a ::
     Byte.x4a :: Byte.x4a :: Byte.x4a :: Byte.x4a :: nil).

Definition TS2 : ordered_set :=
  OrderedSet "TS2"
    (Byte.xbc :: Byte.xbc :: Byte.xbc :: Byte.xbc ::
     Byte.x00 :: Byte.x00 :: Byte.x45 :: Byte.x45 ::
     Byte.x45 :: Byte.x45 :: Byte.x45 :: Byte.x45 ::
     Byte.x45 :: Byte.x45 :: Byte.x45 :: Byte.x45 :: nil).

Definition TSEQ : ordered_set :=
  OrderedSet "TSEQ"
    (Byte.xbc :: Byte.xff :: Byte.x17 :: Byte.xc0 ::
     Byte.x14 :: Byte.xb2 :: Byte.xe7 :: Byte.x02 ::
     Byte.x82 :: Byte.x72 :: Byte.x6e :: Byte.x28 ::
     Byte.xa6 :: Byte.xbe :: Byte.x6d :: Byte.xbf ::
     Byte.x4a :: Byte.x4a :: Byte.x4a :: Byte.x4a ::
     Byte.x4a :: Byte.x4a :: Byte.x4a :: Byte.x4a ::
     Byte.x4a :: Byte.x4a :: Byte.x4a :: Byte.x4a ::
     Byte.x4a :: Byte.x4a :: Byte.x4a :: Byte.x4a :: nil).

(** ** OrderedSetChecker *)

Module OrderedSetChecker.

(** Registers of the module. The three link-config registers exist for the
    training sets only; for another set they are never written. *)
Record state := State {
  adr : Z;
  count : Z;
  reset : bool;
  loopback : bool;
  scrambling : bool
}.

(** The sink endpoint, as driven by the producer in one clock cycle. *)
Record sink := Sink {
  valid : bool;
  data : Z;
  ctrl : Z
}.

Definition init : state := State 0 0 false false false.

Section WithSet.
Variable os : ordered_set.
Variable n_ordered_sets : Z.

Definition count_max : Z := Z.of_nat (mem_depth os) * n_ordered_sets.

(** [error_mask]: reset value [2**32-1], overridden at word 1 of a training
    set. *)
Definition error_mask (s : state) : Z :=
  if is_training os && (adr s =? 1) then 0xffff00ff else 2 ^ 32 - 1.

(** The [error] wire: three [If]s in sequence, each able to raise it. *)
Definition error (s : state) (i : sink) : bool :=
  if valid i then
    let e := false in
    let e := if (adr s =? 0) && negb (ctrl i =? first_ctrl os)
             then true else e in
    let e := if negb (adr s =? 0) && negb (ctrl i =? 0)
             then true else e in
    let e := if negb (Z.land (data i) (error_mask s)
                      =? Z.land (dat_r os (adr s)) (error_mask s))
             then true else e in
    e
  else false.

(** [detected = (count == mem_depth*n_ordered_sets - 1)] *)
Definition detected (s : state) : bool :=
  count s =? count_max - 1.

(** The link-config registers are written on [sink.valid & (adr == 1)]. *)
Definition latch (s : state) (i : sink) : bool :=
  is_training os && valid i && (adr s =? 1).

(** One clock cycle of the [sync] statements. *)
Definition tick (s : state) (i : sink) : state :=
  {| adr :=
       if valid i then
         if negb (error s i) then adr_next os (adr s) else 0
       else adr s;
     count :=
       if valid i then
         if negb (error s i) && negb (detected s)
         then Migen.wrap (Migen.width_max count_max) (count s + 1)
         else 0
       else count s;
     reset := if latch s i then Z.testbit (data i) 8 else reset s;
     loopback := if latch s i then Z.testbit (data i) 10 else loopback s;
     scrambling :=
       if latch s i then negb (Z.testbit (data i) 11) else scrambling s
  |}.

(** The registers after the symbols of [l], one per clock cycle. *)
Definition run (s : state) (l : list sink) : state :=
  foldl tick s l.

(** A corrupted symbol: the wrong [ctrl] marker for the cursor position, or a
    word [w] that passes the masked comparison with one bit flipped at a
    position the mask keeps. *)
Inductive corrupted (s : state) (i : sink) : Prop :=
| wrong_first_ctrl :
    adr s = 0 -> ctrl i <> first_ctrl os -> corrupted s i
| wrong_inner_ctrl :
    adr s <> 0 -> ctrl i <> 0 -> corrupted s i
| flipped_bit (w b : Z) :
    Z.land w (error_mask s) = Z.land (dat_r os (adr s)) (error_mask s) ->
    Z.testbit (error_mask s) b = true ->
    data i = Z.lxor w (Z.shiftl 1 b) ->
    corrupted s i.

End WithSet.

(** An error-free stream for the checker: [n] repetitions of the words of
    the set, the marker of the set on the first word of each. *)
Definition clean_stream (os : ordered_set) (n : nat) : list sink :=
  mjoin (replicate n
    (imap (fun k w => Sink true w (if decide (k = 0%nat) then first_ctrl os else 0))
          (mem_init os))).

End OrderedSetChecker.

(** ** OrderedSetGenerator *)

Module OrderedSetGenerator.

Record state := State {
  adr : Z;
  count : Z;
  run : bool
}.

(** Inputs of one clock cycle: [send], the consumer's [source.ready] and, for
    a training set, the three link-config inputs. *)
Record input := Input {
  send : bool;
  ready : bool;
  reset : bool;
  loopback : bool;
  scrambling : bool
}.

Section WithSet.
Variable os : ordered_set.
Variable n_ordered_sets : Z.

Definition count_max : Z := Z.of_nat (mem_depth os) * n_ordered_sets.

(** [count] has reset value [mem_depth*n_ordered_sets - 1]. *)
Definition init : state := State 0 (count_max - 1) false.

(** [done = (count == mem_depth*n_ordered_sets - 1)] *)
Definition done (s : state) : bool :=
  count s =? count_max - 1.

(** [source.valid = send | ~done] *)
Definition valid (s : state) (i : input) : bool :=
  send i || negb (done s).

Definition ctrl (s : state) : Z :=
  if adr s =? 0 then first_ctrl os else 0.

(** The 8-bit [link_config] wire: bits 0, 1 and 2 are driven for a training
    set, every other bit stays 0. *)
Definition link_config (i : input) : Z :=
  if is_training os then
    Z.lor (Migen.b2z (reset i))
      (Z.lor (Z.shiftl (Migen.b2z (loopback i)) 1)
             (Z.shiftl (Migen.b2z (negb (scrambling i))) 2))
  else 0.

(** [source.data]: the memory word, its bits 8 to 15 replaced by
    [link_config] at word 1 of a training set. *)
Definition data (s : state) (i : input) : Z :=
  if is_training os && (adr s =? 1)
  then Migen.assign_slice 8 16 (dat_r os (adr s)) (link_config i)
  else dat_r os (adr s).

(** A symbol is transferred on [source.valid & source.ready]. *)
Definition transfer (s : state) (i : input) : bool :=
  valid s i && ready i.

Definition tick (s : state) (i : input) : state :=
  {| adr := if transfer s i then adr_next os (adr s) else 0;
     count :=
       if send i && done s then 0
       else if done s then count s
       else Migen.wrap (Migen.width_max count_max) (count s + 1);
     run :=
       if send i && done s then true
       else if done s then false
       else run s
  |}.

(** The symbols [(data, ctrl)] transferred while the inputs of [l] are
    applied, one per clock cycle. *)
Fixpoint transferred (s : state) (l : list input) : list (Z * Z) :=
  match l with
  | [] => []
  | i :: l' =>
      (if transfer s i then [(data s i, ctrl s)] else [])
      ++ transferred (tick s i) l'
  end.

(** The registers after the inputs of [l]. *)
Definition steps (s : state) (l : list input) : state :=
  foldl tick s l.

(** The symbol the generator drives at cursor position [k]. *)
Definition symbol_at (i : input) (k : nat) : Z * Z :=
  let s := State (Z.of_nat k) 0 false in (data s i, ctrl s).

(** One repetition of the ordered set, as transferred. *)
Definition pattern (i : input) : list (Z * Z) :=
  map (symbol_at i) (seq 0 (mem_depth os)).

(** The registers [j] ticks into a burst whose symbols were all accepted:
    the cursor has advanced [j] times, the counter was cleared on the first
    tick and has counted the others. *)
Definition in_burst (j : Z) (s : state) : Prop :=
  adr s = j mod Z.of_nat (mem_depth os)
  /\ count s = (j - 1) mod count_max.

(** Two inputs with the same link-config values. *)
Definition same_config (c i : input) : Prop :=
  reset i = reset c /\ loopback i = loopback c
  /\ scrambling i = scrambling c.

End WithSet.

End OrderedSetGenerator.

(** ** A generator driving a checker

    [source] of the generator connected to [sink] of the checker: the
    checker's [sink.ready] is the constant 1. *)

Module Link.

Record state := State {
  gen : OrderedSetGenerator.state;
  chk : OrderedSetChecker.state
}.

(** What the environment drives: [send] and the link-config inputs. *)
Record input := Input {
  send : bool;
  reset : bool;
  loopback : bool;
  scrambling : bool
}.

Section WithSet.
Variable os : ordered_set.
Variable n_ordered_sets : Z.

Definition init : state :=
  State (OrderedSetGenerator.init os n_ordered_sets) OrderedSetChecker.init.

Definition gen_input (i : input) : OrderedSetGenerator.input :=
  OrderedSetGenerator.Input (send i) true (reset i) (loopback i) (scrambling i).

Definition wire (s : state) (i : input) : OrderedSetChecker.sink :=
  OrderedSetChecker.Sink (OrderedSetGenerator.valid os n_ordered_sets (gen s) (gen_input i))
               (OrderedSetGenerator.data os (gen s) (gen_input i))
               (OrderedSetGenerator.ctrl os (gen s)).

Definition tick (s : state) (i : input) : state :=
  State (OrderedSetGenerator.tick os n_ordered_sets (gen s) (gen_input i))
        (OrderedSetChecker.tick os n_ordered_sets (chk s) (wire s i)).

(** The state at the start of clock cycle [n], the environment driving
    [inp k] during cycle [k]. *)
Fixpoint at_cycle (inp : nat -> input) (n : nat) : state :=
  match n with
  | O => init
  | S n' => tick (at_cycle inp n') (inp n')
  end.

End WithSet.

End Link.

(** ** LFPS burst clock *)

Module Lfps.

(** One sampled clock cycle of the transmitter's outputs. *)
Record sample := Sample {
  tx_idle : bool;
  tx_pattern : Z
}.





(** The counters of [burst_clk_checker] in [test_lfps.py]. *)
Record counters := Counters {
  transitions : Z;
  ones_ticks : Z;
  zeroes_ticks : Z;
  last_pattern : Z
}.

Definition counters_init : counters := Counters 0 0 0 0.

(** One pass of the checker's loop over the outputs of a clock cycle. *)
Definition count_sample (c : counters) (x : sample) : counters :=
  if negb (tx_idle x) then
    {| transitions :=
         if negb (tx_pattern x =? last_pattern c) then transitions c + 1
         else transitions c;
       ones_ticks :=
         if negb (tx_pattern x =? 0) then ones_ticks c + 1
         else ones_ticks c;
       zeroes_ticks :=
         if negb (tx_pattern x =? 0) then zeroes_ticks c
         else zeroes_ticks c + 1;
       last_pattern := tx_pattern x |}
  else c.

Definition burst_clk_checker (l : list sample) : counters :=
  foldl count_sample counters_init l.

Definition total_ticks (c : counters) : Z :=
  ones_ticks c + zeroes_ticks c.

Local Open Scope Q_scope.








End Lfps.

(** ** The other checkers of the LFPS tests *)

Module BurstLengthChecker.

(** The counters of [burst_length_checker] in [test_lfps.py]; [last_idle] is
    its variable [tx_idle], the level seen on the cycle before. *)
Record counters := Counters {
  transitions : Z;
  ticks : Z;
  last_idle : bool
}.

Definition counters_init : counters := Counters 0 0 false.

(** One pass of the loop over the outputs of a clock cycle. *)
Definition count_sample (c : counters) (x : Lfps.sample) : counters :=
  {| transitions :=
       if negb (Bool.eqb (Lfps.tx_idle x) (last_idle c))
       then transitions c + 1 else transitions c;
     ticks := if negb (Lfps.tx_idle x) then ticks c + 1 else ticks c;
     last_idle := Lfps.tx_idle x |}.


Local Open Scope Q_scope.



End BurstLengthChecker.

Module LfpsChecker.

(** The counters of [lfps_checker] in [test_lfps.py]. *)
Record counters := Counters {
  bursts : Z;
  burst_ticks : Z;
  total_ticks : Z;
  last_idle : bool
}.

Definition counters_init : counters := Counters 0 0 0 false.

Definition count_sample (c : counters) (x : Lfps.sample) : counters :=
  {| bursts :=
       if negb (Lfps.tx_idle x) && last_idle c then bursts c + 1
       else bursts c;
     burst_ticks :=
       if negb (Lfps.tx_idle x) then burst_ticks c + 1 else burst_ticks c;
     total_ticks := total_ticks c + 1;
     last_idle := Lfps.tx_idle x |}.


Local Open Scope Q_scope.



End LfpsChecker.

(** Traces for the checkers: a burst with idle cycles before it, and a
    sequence of such bursts one after the other. *)
Definition active (x : Lfps.sample) : bool := negb (Lfps.tx_idle x).




(** ** The constructor of OrderedSetUnit

    The body of [__init__] as a computation over the object under
    construction, which either completes or raises. Names the body does not
    assign are looked up in the module's globals, then in the builtins. *)

Module OrderedSetUnit.

Inductive exn :=
| NameError (x : string)
| AttributeError (x : string).

(** What the constructor has done to [self] so far. *)
Record instance := Instance {
  attrs : list string;
  submodules : list string;
  comb : list string
}.

Definition blank : instance := Instance [] [] [].

(** A Python object passed in: the attributes it has. *)
Record pyobject := PyObject {
  has_attrs : gset string
}.

(** The names bound when the constructor runs. [from migen import *] binds
    the names Migen exports, which are a parameter here; the other imports
    and the three class statements bind the names listed. *)
Record namespace := Namespace {
  migen_names : gset string;
  builtin_names : gset string
}.

Definition module_globals (ns : namespace) : gset string :=
  migen_names ns
  ∪ {[ "stream"; "TSEQ"; "TS1"; "TS2" ]}
  ∪ {[ "OrderedSetChecker"; "OrderedSetGenerator"; "OrderedSetUnit" ]}.

Definition M (A : Type) : Type := instance -> instance * (exn + A).

Definition ret {A : Type} (a : A) : M A := fun o => (o, inr a).

Definition bind {A B : Type} (m : M A) (k : A -> M B) : M B :=
  fun o =>
    match m o with
    | (o', inl e) => (o', inl e)
    | (o', inr a) => k a o'
    end.

Definition raise {A : Type} (e : exn) : M A := fun o => (o, inl e).

Notation "m1 ;; m2" := (bind m1 (fun _ => m2))
  (at level 100, m2 at level 200, right associativity).

(** Reading a global name. *)
Definition load_global (ns : namespace) (x : string) : M unit :=
  if decide (x ∈ module_globals ns ∪ builtin_names ns) then ret tt
  else raise (NameError x).

(** Reading an attribute of an argument. *)
Definition load_attr (o : pyobject) (x : string) : M unit :=
  if decide (x ∈ has_attrs o) then ret tt else raise (AttributeError x).

(** [self.x = ...] *)
Definition store_attr (x : string) : M unit :=
  fun o => (Instance (attrs o ++ [x]) (submodules o) (comb o), inr tt).

(** [self.submodules += ...] *)
Definition add_submodules (l : list string) : M unit :=
  fun o => (Instance (attrs o) (submodules o ++ l) (comb o), inr tt).

(** [self.comb += [...]] *)
Definition add_comb (l : list string) : M unit :=
  fun o => (Instance (attrs o) (submodules o) (comb o ++ l), inr tt).

(** [OrderedSetUnit.__init__(self, serdes)], statement by statement; in an
    assignment the right-hand side is evaluated before the store. *)
Definition init (ns : namespace) (serdes : pyobject) : M unit :=
  load_global ns "Signal" ;; store_attr "rx_tseq" ;;
  load_global ns "Signal" ;; store_attr "rx_ts1" ;;
  load_global ns "Signal" ;; store_attr "rx_ts2" ;;
  load_global ns "SIgnal" ;; store_attr "tx_ts2" ;;
  load_global ns "OrderedSetChecker" ;; load_global ns "TSEQ" ;;
  load_global ns "OrderedSetChecker" ;; load_global ns "TS1" ;;
  load_global ns "OrderedSetChecker" ;; load_global ns "TS2" ;;
  add_submodules ["tseq_checker"; "ts1_checher"; "ts2_checker"] ;;
  load_attr serdes "source" ;;
  load_attr serdes "source" ;; load_global ns "ts1_checker" ;;
  load_attr serdes "source" ;;
  add_comb ["tseq_checker.sink"; "ts1_checker.sink"; "ts2_checker.sink"] ;;
  load_global ns "OrderedSetGenerator" ;; load_global ns "TS2" ;;
  add_submodules ["ts2_generator"] ;;
  load_global ns "If" ;; load_attr serdes "sink" ;;
  add_comb ["ts2_generator"].

(** Running the constructor on a fresh object. *)
Definition construct (ns : namespace) (serdes : pyobject)
  : instance * (exn + unit) :=
  init ns serdes blank.

End OrderedSetUnit.

(** * Properties *)

(** ** Signal widths *)

Lemma bits_for_bound (n v : Z) : 0 <= v <= n -> v < 2 ^ Migen.bits_for n.
Proof.
  intros Hv. unfold Migen.bits_for.
  destruct (Z.ltb_spec 0 n) as [Hn | Hn].
  - pose proof (Z.log2_up_spec (n + 1)) as Hs. lia.
  - replace v with 0 by lia. reflexivity.
Qed.

Lemma wrap_small (m v : Z) : 0 <= v < m -> Migen.wrap (Migen.width_max m) v = v.
Proof.
  intros Hv. unfold Migen.wrap, Migen.width_max.
  apply Z.mod_small. split; [lia |]. apply bits_for_bound. lia.
Qed.

Lemma adr_next_spec (os : ordered_set) (a : Z) :
  0 <= a < Z.of_nat (mem_depth os) ->
  adr_next os a = (a + 1) mod Z.of_nat (mem_depth os).
Proof.
  intros Ha. unfold adr_next.
  destruct (Z.eqb_spec a (Z.of_nat (mem_depth os) - 1)) as [-> | Hne].
  - replace (Z.of_nat (mem_depth os) - 1 + 1) with (Z.of_nat (mem_depth os)) by lia.
    symmetry. apply Z.mod_same. lia.
  - rewrite wrap_small by lia. symmetry. apply Z.mod_small. lia.
Qed.

(** ** Bits of the comparison mask *)

Lemma testbit_const_32 (c : Z) (f : Z -> bool) :
  0 <= c < 2 ^ 32 ->
  (forall k, (k < 32)%nat -> Z.testbit c (Z.of_nat k) = f (Z.of_nat k)) ->
  forall b, Z.testbit c b = (0 <=? b) && (b <? 32) && f b.
Proof.
  intros Hc Hf b.
  destruct (Z.leb_spec 0 b) as [Hb | Hb]; simpl.
  - destruct (Z.ltb_spec b 32) as [Hb' | Hb']; simpl.
    + rewrite <- (Z2Nat.id b) by lia. apply Hf. lia.
    + destruct (Z.eq_dec c 0) as [-> | Hc0]; [apply Z.bits_0 |].
      apply Z.bits_above_log2; [lia |].
      apply Z.lt_le_trans with 32; [| lia].
      apply Z.log2_lt_pow2; lia.
  - apply Z.testbit_neg_r. lia.
Qed.

Ltac below_32 k :=
  do 32 (destruct k as [| k]; [reflexivity |]); exfalso; lia.

Lemma testbit_full_mask (b : Z) :
  Z.testbit (2 ^ 32 - 1) b = (0 <=? b) && (b <? 32).
Proof.
  rewrite (testbit_const_32 (2 ^ 32 - 1) (fun _ => true)).
  - apply andb_true_r.
  - lia.
  - intros k Hk. below_32 k.
Qed.

Lemma testbit_hole_mask (b : Z) :
  Z.testbit 0xffff00ff b
  = (0 <=? b) && (b <? 32) && negb ((8 <=? b) && (b <? 16)).
Proof.
  apply (testbit_const_32 0xffff00ff
           (fun k => negb ((8 <=? k) && (k <? 16)))).
  - lia.
  - intros k Hk. below_32 k.
Qed.

(** Two words that differ at a bit the mask keeps differ under the mask. *)
Lemma masked_differ (x y m b : Z) :
  Z.testbit m b = true -> Z.testbit x b <> Z.testbit y b ->
  Z.land x m <> Z.land y m.
Proof.
  intros Hm Hxy Heq. apply Hxy.
  assert (Hb : Z.testbit (Z.land x m) b = Z.testbit (Z.land y m) b)
    by (rewrite Heq; reflexivity).
  rewrite !Z.land_spec, Hm, !andb_true_r in Hb. exact Hb.
Qed.

(** ** The checker *)

Lemma is_training_iff (os : ordered_set) :
  is_training os = true <-> name os = "TS1"%string \/ name os = "TS2"%string.
Proof.
  unfold is_training. rewrite orb_true_iff, !String.eqb_eq. reflexivity.
Qed.

Lemma error_cases (os : ordered_set) (s : OrderedSetChecker.state)
    (i : OrderedSetChecker.sink) :
  OrderedSetChecker.valid i = true ->
  OrderedSetChecker.error os s i = true <->
  (OrderedSetChecker.adr s = 0 /\ OrderedSetChecker.ctrl i <> first_ctrl os)
  \/ (OrderedSetChecker.adr s <> 0 /\ OrderedSetChecker.ctrl i <> 0)
  \/ Z.land (OrderedSetChecker.data i) (OrderedSetChecker.error_mask os s)
     <> Z.land (dat_r os (OrderedSetChecker.adr s)) (OrderedSetChecker.error_mask os s).
Proof.
  intros Hv. unfold OrderedSetChecker.error. rewrite Hv.
  destruct (Z.eqb_spec (OrderedSetChecker.adr s) 0) as [Ha | Ha];
    destruct (Z.eqb_spec (OrderedSetChecker.ctrl i) (first_ctrl os)) as [Hf | Hf];
    destruct (Z.eqb_spec (OrderedSetChecker.ctrl i) 0) as [Hc | Hc];
    destruct (Z.eqb_spec (Z.land (OrderedSetChecker.data i) (OrderedSetChecker.error_mask os s))
                (Z.land (dat_r os (OrderedSetChecker.adr s)) (OrderedSetChecker.error_mask os s)))
      as [Hd | Hd];
    simpl; split; intros H; try reflexivity; try discriminate; try tauto;
    exfalso; tauto.
Qed.

(** C7. On a valid tick the [error] wire is raised exactly when the cursor is
    at word 0 and [ctrl] is not the marker of the set, or the cursor is past
    word 0 and [ctrl] is not 0, or the data differs from the pattern word
    under the mask; the mask keeps the 32 bits of the word, except at word 1
    of a training set (TS1, TS2), where it is 0xffff00ff and drops bits 8 to
    15; the marker is 15 for a training set and 1 otherwise. *)
Theorem error_predicate (os : ordered_set) (s : OrderedSetChecker.state)
    (i : OrderedSetChecker.sink) :
  OrderedSetChecker.valid i = true ->
  (OrderedSetChecker.error os s i = true <->
     (OrderedSetChecker.adr s = 0 /\ OrderedSetChecker.ctrl i <> first_ctrl os)
     \/ (OrderedSetChecker.adr s <> 0 /\ OrderedSetChecker.ctrl i <> 0)
     \/ Z.land (OrderedSetChecker.data i) (OrderedSetChecker.error_mask os s)
        <> Z.land (dat_r os (OrderedSetChecker.adr s)) (OrderedSetChecker.error_mask os s))
  /\ OrderedSetChecker.error_mask os s
     = (if is_training os && (OrderedSetChecker.adr s =? 1) then 0xffff00ff
        else 0xffffffff)
  /\ (forall b, Z.testbit (OrderedSetChecker.error_mask os s) b
                = (0 <=? b) && (b <? 32)
                  && negb (is_training os && (OrderedSetChecker.adr s =? 1)
                           && ((8 <=? b) && (b <? 16))))
  /\ first_ctrl os = (if is_training os then 15 else 1).
Proof.
  intros Hv. split; [exact (error_cases os s i Hv) |].
  split; [reflexivity |]. split; [| reflexivity].
  intros b. unfold OrderedSetChecker.error_mask.
  destruct (is_training os && (OrderedSetChecker.adr s =? 1)); simpl.
  - apply testbit_hole_mask.
  - rewrite testbit_full_mask. symmetry. apply andb_true_r.
Qed.

Lemma error_predicate_witness :
  let s := OrderedSetChecker.State 1 1 false false false in
  let i := OrderedSetChecker.Sink true 0x4a4a1234 0 in
  OrderedSetChecker.valid i = true /\ OrderedSetChecker.error TS1 s i = true.
Proof.
  intros s i. split; [reflexivity |].
  apply (proj1 (error_predicate TS1 s i eq_refl)).
  right. right. vm_compute. discriminate.
Defined.

Lemma corrupted_error (os : ordered_set) (s : OrderedSetChecker.state)
    (i : OrderedSetChecker.sink) :
  OrderedSetChecker.valid i = true -> OrderedSetChecker.corrupted os s i ->
  OrderedSetChecker.error os s i = true.
Proof.
  intros Hv Hc. apply error_cases; [exact Hv |].
  destruct Hc as [Ha Hf | Ha Hf | w b Hw Hb Hd].
  - left. split; assumption.
  - right. left. split; assumption.
  - right. right.
    assert (Hb0 : 0 <= b).
    { destruct (Z.neg_nonneg_cases b) as [Hn | Hn]; [| exact Hn].
      rewrite Z.testbit_neg_r in Hb by exact Hn. discriminate. }
    intros Heq. rewrite <- Hw in Heq. revert Heq.
    apply (masked_differ _ _ _ b Hb).
    rewrite Hd, Z.lxor_spec, Z.shiftl_spec by exact Hb0.
    rewrite Z.sub_diag. simpl. destruct (Z.testbit w b); discriminate.
Qed.

(** C8. A valid tick carrying a corrupted symbol (a wrong [ctrl] marker, or
    one flipped bit at a position the mask keeps) clears both the repetition
    counter and the cursor, in every state of every checker. *)
Theorem corrupted_symbol_restarts (os : ordered_set) (n : Z)
    (s : OrderedSetChecker.state) (i : OrderedSetChecker.sink) :
  OrderedSetChecker.valid i = true -> OrderedSetChecker.corrupted os s i ->
  OrderedSetChecker.count (OrderedSetChecker.tick os n s i) = 0
  /\ OrderedSetChecker.adr (OrderedSetChecker.tick os n s i) = 0.
Proof.
  intros Hv Hc. pose proof (corrupted_error os s i Hv Hc) as He.
  unfold OrderedSetChecker.tick; simpl. rewrite Hv, He. simpl. split; reflexivity.
Qed.

Lemma corrupted_symbol_restarts_witness :
  let s := OrderedSetChecker.run TS1 8 OrderedSetChecker.init
             (take 6 (OrderedSetChecker.clean_stream TS1 8)) in
  let i := OrderedSetChecker.Sink true (Z.lxor 0x4a4a4a4a (Z.shiftl 1 20)) 0 in
  (OrderedSetChecker.adr s = 2 /\ OrderedSetChecker.count s = 6)
  /\ OrderedSetChecker.count (OrderedSetChecker.tick TS1 8 s i) = 0
  /\ OrderedSetChecker.adr (OrderedSetChecker.tick TS1 8 s i) = 0.
Proof.
  split; [split; reflexivity |].
  apply corrupted_symbol_restarts; [reflexivity |].
  apply (OrderedSetChecker.flipped_bit TS1 _ _ 0x4a4a4a4a 20); reflexivity.
Defined.

(** C1 as stated fails: with the TS1 table and 8 repetitions, the error-free
    stream raises [detected] when the counter reaches 31, and the next valid
    symbol of the same stream clears the counter and [detected] with it. *)
Lemma detected_not_held :
  let s := OrderedSetChecker.run TS1 8 OrderedSetChecker.init
             (take 31 (OrderedSetChecker.clean_stream TS1 9)) in
  let i := OrderedSetChecker.Sink true 0x4a4a4a4a 0 in
  OrderedSetChecker.clean_stream TS1 9 !! 31%nat = Some i
  /\ OrderedSetChecker.count s = OrderedSetChecker.count_max TS1 8 - 1
  /\ OrderedSetChecker.detected TS1 8 s = true
  /\ OrderedSetChecker.error TS1 s i = false
  /\ OrderedSetChecker.count (OrderedSetChecker.tick TS1 8 s i) = 0
  /\ OrderedSetChecker.detected TS1 8 (OrderedSetChecker.tick TS1 8 s i) = false.
Proof. vm_compute. repeat split; reflexivity. Qed.

(** C1, amended. [detected] is asserted exactly while the counter equals
    [depth*N - 1]. The counter does not freeze there: the next valid tick
    clears it, whatever the symbol, so [detected] falls and the count starts
    again; only a tick without a valid symbol leaves counter and [detected]
    as they are. *)
Theorem detected_until_next_valid (os : ordered_set) (n : Z)
    (s : OrderedSetChecker.state) (i : OrderedSetChecker.sink) :
  1 < OrderedSetChecker.count_max os n ->
  (OrderedSetChecker.detected os n s = true
   <-> OrderedSetChecker.count s = OrderedSetChecker.count_max os n - 1)
  /\ (OrderedSetChecker.detected os n s = true -> OrderedSetChecker.valid i = true ->
      OrderedSetChecker.count (OrderedSetChecker.tick os n s i) = 0
      /\ OrderedSetChecker.detected os n (OrderedSetChecker.tick os n s i) = false)
  /\ (OrderedSetChecker.valid i = false ->
      OrderedSetChecker.count (OrderedSetChecker.tick os n s i) = OrderedSetChecker.count s
      /\ OrderedSetChecker.detected os n (OrderedSetChecker.tick os n s i)
         = OrderedSetChecker.detected os n s).
Proof.
  intros Hmax. split; [| split].
  - unfold OrderedSetChecker.detected. apply Z.eqb_eq.
  - intros Hd Hv.
    assert (Hc : OrderedSetChecker.count (OrderedSetChecker.tick os n s i) = 0).
    { unfold OrderedSetChecker.tick; cbn [OrderedSetChecker.count].
      rewrite Hv, Hd, andb_false_r. reflexivity. }
    split; [exact Hc |].
    unfold OrderedSetChecker.detected. rewrite Hc. apply Z.eqb_neq. lia.
  - intros Hv. unfold OrderedSetChecker.detected, OrderedSetChecker.tick; simpl.
    rewrite Hv. split; reflexivity.
Qed.

Lemma detected_until_next_valid_witness :
  let s := OrderedSetChecker.State 3 31 false false false in
  let i := OrderedSetChecker.Sink true 0x4a4a4a4a 0 in
  1 < OrderedSetChecker.count_max TS1 8
  /\ OrderedSetChecker.detected TS1 8 s = true
  /\ OrderedSetChecker.valid i = true
  /\ OrderedSetChecker.count (OrderedSetChecker.tick TS1 8 s i) = 0
  /\ OrderedSetChecker.detected TS1 8 (OrderedSetChecker.tick TS1 8 s i) = false.
Proof.
  intros s i. split; [reflexivity |]. split; [reflexivity |].
  split; [reflexivity |].
  apply (detected_until_next_valid TS1 8 s i); reflexivity.
Defined.

(** C3 as stated fails: after the first word of TS1 the cursor is at 1; a
    symbol with a wrong word there raises [error], and its bit 8 is written
    to [reset] all the same. *)
Lemma latch_despite_error :
  let s := OrderedSetChecker.tick TS1 8 OrderedSetChecker.init
             (OrderedSetChecker.Sink true 0xbcbcbcbc 15) in
  let i := OrderedSetChecker.Sink true 0x00000100 0 in
  OrderedSetChecker.adr s = 1
  /\ OrderedSetChecker.error TS1 s i = true
  /\ OrderedSetChecker.reset s = false
  /\ OrderedSetChecker.reset (OrderedSetChecker.tick TS1 8 s i) = true.
Proof. vm_compute. repeat split; reflexivity. Qed.

(** C3, amended. In a checker for a training set, a valid tick writes the
    three link-config registers from the incoming word (reset = bit 8,
    loopback = bit 10, scrambling = not bit 11) exactly when the cursor is
    at word 1, whether or not [error] is raised on that tick; at any other
    cursor position, and on a tick without a valid symbol, they keep their
    values. *)
Theorem link_config_latched_at_word_1 (os : ordered_set) (n : Z)
    (s : OrderedSetChecker.state) (i : OrderedSetChecker.sink) :
  is_training os = true ->
  let s' := OrderedSetChecker.tick os n s i in
  (OrderedSetChecker.valid i = true -> OrderedSetChecker.adr s = 1 ->
   OrderedSetChecker.reset s' = Z.testbit (OrderedSetChecker.data i) 8
   /\ OrderedSetChecker.loopback s' = Z.testbit (OrderedSetChecker.data i) 10
   /\ OrderedSetChecker.scrambling s' = negb (Z.testbit (OrderedSetChecker.data i) 11))
  /\ (OrderedSetChecker.valid i = false \/ OrderedSetChecker.adr s <> 1 ->
      OrderedSetChecker.reset s' = OrderedSetChecker.reset s
      /\ OrderedSetChecker.loopback s' = OrderedSetChecker.loopback s
      /\ OrderedSetChecker.scrambling s' = OrderedSetChecker.scrambling s).
Proof.
  intros Ht s'. subst s'. unfold OrderedSetChecker.tick, OrderedSetChecker.latch; simpl.
  rewrite Ht; simpl. split.
  - intros Hv Ha. rewrite Hv, Ha. simpl. repeat split; reflexivity.
  - intros [Hv | Ha].
    + rewrite Hv. simpl. repeat split; reflexivity.
    + apply Z.eqb_neq in Ha. rewrite Ha, andb_false_r.
      repeat split; reflexivity.
Qed.

Lemma link_config_latched_at_word_1_witness :
  let s := OrderedSetChecker.State 1 1 false false false in
  let i := OrderedSetChecker.Sink true 0x00000d00 7 in
  is_training TS1 = true
  /\ OrderedSetChecker.error TS1 s i = true
  /\ OrderedSetChecker.valid i = true
  /\ OrderedSetChecker.adr s = 1
  /\ OrderedSetChecker.reset (OrderedSetChecker.tick TS1 8 s i) = true
  /\ OrderedSetChecker.loopback (OrderedSetChecker.tick TS1 8 s i) = true
  /\ OrderedSetChecker.scrambling (OrderedSetChecker.tick TS1 8 s i) = false.
Proof.
  intros s i. do 4 (split; [reflexivity |]).
  apply (link_config_latched_at_word_1 TS1 8 s i); reflexivity.
Defined.

(** ** The generator *)

(** C4 as stated fails on "decrements": one tick after a burst of TS1 with 8
    repetitions has started the counter is 0, and the next tick takes it to
    1, which is neither [0 - 1] nor its 5-bit wrap-around 31. *)
Lemma counter_counts_up :
  let i := OrderedSetGenerator.Input true true false false false in
  let s := OrderedSetGenerator.tick TS1 8 (OrderedSetGenerator.init TS1 8) i in
  Migen.width_max (OrderedSetGenerator.count_max TS1 8) = 5
  /\ OrderedSetGenerator.done TS1 8 s = false
  /\ OrderedSetGenerator.count s = 0
  /\ OrderedSetGenerator.count (OrderedSetGenerator.tick TS1 8 s i) = 1
  /\ OrderedSetGenerator.count (OrderedSetGenerator.tick TS1 8 s i)
     <> OrderedSetGenerator.count s - 1
  /\ OrderedSetGenerator.count (OrderedSetGenerator.tick TS1 8 s i)
     <> Migen.wrap 5 (OrderedSetGenerator.count s - 1).
Proof. vm_compute. repeat split; discriminate. Qed.

(** C4, amended. The counter of the generator is initialised to
    [depth*N - 1], so [done] starts true; [done] is true exactly when the
    counter equals [depth*N - 1]; while [done] is false the counter goes up
    by one each tick (within its width) and [run] keeps its value; a tick
    with [send] and [done] sets [run] and clears the counter; a tick with
    [done] and without [send] clears [run] and leaves the counter as it
    is. *)
Theorem generator_counter (os : ordered_set) (n : Z)
    (s : OrderedSetGenerator.state) (i : OrderedSetGenerator.input) :
  let s' := OrderedSetGenerator.tick os n s i in
  let top := Z.of_nat (mem_depth os) * n - 1 in
  (OrderedSetGenerator.count (OrderedSetGenerator.init os n) = top
   /\ OrderedSetGenerator.done os n (OrderedSetGenerator.init os n) = true)
  /\ (OrderedSetGenerator.done os n s = true <-> OrderedSetGenerator.count s = top)
  /\ (OrderedSetGenerator.done os n s = false ->
      OrderedSetGenerator.run s' = OrderedSetGenerator.run s
      /\ OrderedSetGenerator.count s'
         = (OrderedSetGenerator.count s + 1) mod 2 ^ Migen.bits_for top
      /\ (0 <= OrderedSetGenerator.count s < top ->
          OrderedSetGenerator.count s' = OrderedSetGenerator.count s + 1))
  /\ (OrderedSetGenerator.send i = true -> OrderedSetGenerator.done os n s = true ->
      OrderedSetGenerator.run s' = true /\ OrderedSetGenerator.count s' = 0)
  /\ (OrderedSetGenerator.send i = false -> OrderedSetGenerator.done os n s = true ->
      OrderedSetGenerator.run s' = false
      /\ OrderedSetGenerator.count s' = OrderedSetGenerator.count s).
Proof.
  intros s' top. subst s' top.
  split; [| split; [| split; [| split]]].
  - split; [reflexivity |]. unfold OrderedSetGenerator.done, OrderedSetGenerator.init; simpl.
    apply Z.eqb_refl.
  - unfold OrderedSetGenerator.done, OrderedSetGenerator.count_max. apply Z.eqb_eq.
  - intros Hd. unfold OrderedSetGenerator.tick; simpl. rewrite Hd, andb_false_r.
    split; [reflexivity |]. split; [reflexivity |].
    intros Hc. apply wrap_small. unfold OrderedSetGenerator.count_max. lia.
  - intros Hs Hd. unfold OrderedSetGenerator.tick; simpl. rewrite Hs, Hd.
    split; reflexivity.
  - intros Hs Hd. unfold OrderedSetGenerator.tick; simpl. rewrite Hs, Hd.
    split; reflexivity.
Qed.

Lemma generator_counter_witness :
  let i := OrderedSetGenerator.Input true true false false false in
  let s := OrderedSetGenerator.tick TS1 8 (OrderedSetGenerator.init TS1 8) i in
  (OrderedSetGenerator.done TS1 8 s = false /\ 0 <= OrderedSetGenerator.count s < 31)
  /\ OrderedSetGenerator.count (OrderedSetGenerator.tick TS1 8 s i)
     = OrderedSetGenerator.count s + 1.
Proof.
  intros i s.
  assert (Hc : 0 <= OrderedSetGenerator.count s < 31) by (vm_compute; split; congruence).
  split; [split; [reflexivity | exact Hc] |].
  apply (generator_counter TS1 8 s i); [reflexivity | exact Hc].
Defined.

(** ** A burst whose symbols are all accepted *)

Lemma count_max_pos (os : ordered_set) (n : Z) :
  1 < OrderedSetGenerator.count_max os n -> 0 < Z.of_nat (mem_depth os) /\ 0 < n.
Proof.
  unfold OrderedSetGenerator.count_max. intros H.
  pose proof (Nat2Z.is_nonneg (mem_depth os)) as Hd.
  destruct (Z.eq_dec (Z.of_nat (mem_depth os)) 0) as [H0 | H0].
  - rewrite H0 in H. simpl in H. lia.
  - split; [lia |].
    destruct (Z.lt_ge_cases 0 n) as [Hn | Hn]; [exact Hn |].
    pose proof (Z.mul_nonneg_nonpos _ _ Hd Hn). lia.
Qed.

Lemma burst_count (m j : Z) :
  0 < m -> 0 <= j < m ->
  (j - 1) mod m = if j =? 0 then m - 1 else j - 1.
Proof.
  intros Hm Hj. destruct (Z.eqb_spec j 0) as [-> | Hj0].
  - symmetry. apply Z.mod_unique with (q := -1); lia.
  - apply Z.mod_small. lia.
Qed.

Lemma in_burst_done (os : ordered_set) (n j : Z) (g : OrderedSetGenerator.state) :
  1 < OrderedSetGenerator.count_max os n -> 0 <= j < OrderedSetGenerator.count_max os n ->
  OrderedSetGenerator.in_burst os n j g ->
  OrderedSetGenerator.done os n g = (j =? 0).
Proof.
  intros Hmax Hj [_ Hc]. unfold OrderedSetGenerator.done. rewrite Hc.
  rewrite burst_count by lia.
  destruct (Z.eqb_spec j 0); [apply Z.eqb_refl | apply Z.eqb_neq; lia].
Qed.

Lemma in_burst_tick (os : ordered_set) (n j : Z)
    (g : OrderedSetGenerator.state) (i : OrderedSetGenerator.input) :
  1 < OrderedSetGenerator.count_max os n -> 0 <= j < OrderedSetGenerator.count_max os n ->
  OrderedSetGenerator.in_burst os n j g ->
  (j = 0 -> OrderedSetGenerator.send i = true) -> OrderedSetGenerator.ready i = true ->
  OrderedSetGenerator.valid os n g i = true
  /\ OrderedSetGenerator.in_burst os n (j + 1) (OrderedSetGenerator.tick os n g i).
Proof.
  intros Hmax Hj Hb Hs Hr.
  pose proof (count_max_pos os n Hmax) as [Hd Hn].
  pose proof (in_burst_done os n j g Hmax Hj Hb) as Hdone.
  destruct Hb as [Ha Hc].
  assert (Hv : OrderedSetGenerator.valid os n g i = true).
  { unfold OrderedSetGenerator.valid. rewrite Hdone.
    destruct (Z.eqb_spec j 0) as [H0 | H0]; [rewrite Hs by exact H0 | ];
      simpl; auto using orb_true_r. }
  split; [exact Hv |].
  unfold OrderedSetGenerator.in_burst, OrderedSetGenerator.tick,
    OrderedSetGenerator.transfer; simpl.
  rewrite Hv, Hr, Hdone. simpl. split.
  - rewrite adr_next_spec, Ha.
    + apply Z.add_mod_idemp_l. lia.
    + rewrite Ha. apply Z.mod_pos_bound. exact Hd.
  - replace (j + 1 - 1) with j by lia. rewrite Z.mod_small by lia.
    destruct (Z.eqb_spec j 0) as [H0 | H0].
    + rewrite Hs by exact H0. simpl. lia.
    + rewrite andb_false_r, Hc, burst_count by lia.
      apply Z.eqb_neq in H0. rewrite H0.
      replace (j - 1 + 1) with j by lia. apply wrap_small. lia.
Qed.

(** Bits 8 to 15 are the ones the mask of word 1 drops: a word with that
    slice overwritten still passes the masked comparison. *)
Lemma slice_masked (w v : Z) :
  Z.land (Migen.assign_slice 8 16 w v) 0xffff00ff = Z.land w 0xffff00ff.
Proof.
  apply Z.bits_inj'. intros b Hb. unfold Migen.assign_slice.
  change (16 - 8) with 8.
  rewrite !Z.land_spec, Z.lor_spec, Z.ldiff_spec, testbit_hole_mask.
  destruct (Z.leb_spec 0 b); [| lia].
  destruct (Z.ltb_spec b 32); simpl; [| rewrite !andb_false_r; reflexivity].
  destruct (Z.leb_spec 8 b); simpl.
  - destruct (Z.ltb_spec b 16); simpl; [rewrite !andb_false_r; reflexivity |].
    rewrite !Z.shiftl_spec, Z.land_spec by lia.
    rewrite (Z.ones_spec_high 8 (b - 8)) by lia.
    rewrite !andb_true_r, andb_false_r, orb_false_r. reflexivity.
  - rewrite !Z.shiftl_spec_low by lia.
    rewrite !andb_true_r, orb_false_r. reflexivity.
Qed.

(** The checker finds no error in the symbol a generator for the same set
    drives when both cursors agree. *)
Lemma in_step_no_error (os : ordered_set) (n : Z)
    (g : OrderedSetGenerator.state) (c : OrderedSetChecker.state) (i : OrderedSetGenerator.input) :
  OrderedSetChecker.adr c = OrderedSetGenerator.adr g ->
  OrderedSetChecker.error os c
    (OrderedSetChecker.Sink (OrderedSetGenerator.valid os n g i) (OrderedSetGenerator.data os g i)
                  (OrderedSetGenerator.ctrl os g)) = false.
Proof.
  intros Ha. unfold OrderedSetChecker.error; simpl.
  destruct (OrderedSetGenerator.valid os n g i); [| reflexivity].
  unfold OrderedSetGenerator.ctrl, OrderedSetGenerator.data,
    OrderedSetChecker.error_mask. rewrite Ha.
  destruct (Z.eqb_spec (OrderedSetGenerator.adr g) 0) as [H0 | H0]; simpl.
  - rewrite Z.eqb_refl. simpl.
    rewrite H0, andb_false_r, Z.eqb_refl. reflexivity.
  - destruct (is_training os && (OrderedSetGenerator.adr g =? 1)).
    + rewrite slice_masked, Z.eqb_refl. reflexivity.
    + rewrite Z.eqb_refl. reflexivity.
Qed.

Lemma link_tick_in_burst (os : ordered_set) (n j : Z)
    (s : Link.state) (i : Link.input) :
  1 < OrderedSetGenerator.count_max os n -> 0 <= j < OrderedSetGenerator.count_max os n - 1 ->
  OrderedSetGenerator.in_burst os n j (Link.gen s) ->
  OrderedSetChecker.adr (Link.chk s) = OrderedSetGenerator.adr (Link.gen s) ->
  OrderedSetChecker.count (Link.chk s) = j ->
  (j = 0 -> Link.send i = true) ->
  let s' := Link.tick os n s i in
  OrderedSetChecker.valid (Link.wire os n s i) = true
  /\ OrderedSetGenerator.in_burst os n (j + 1) (Link.gen s')
  /\ OrderedSetChecker.adr (Link.chk s') = OrderedSetGenerator.adr (Link.gen s')
  /\ OrderedSetChecker.count (Link.chk s') = j + 1.
Proof.
  intros Hmax Hj Hb Ha Hc Hs s'. subst s'.
  destruct (in_burst_tick os n j (Link.gen s) (Link.gen_input i) Hmax)
    as [Hv Hb']; [lia | exact Hb | exact Hs | reflexivity |].
  split; [exact Hv |]. split; [exact Hb' |].
  pose proof (in_step_no_error os n (Link.gen s) (Link.chk s)
                (Link.gen_input i) Ha) as He.
  change (OrderedSetChecker.error os (Link.chk s) (Link.wire os n s i) = false) in He.
  change (OrderedSetChecker.valid (Link.wire os n s i) = true) in Hv.
  unfold Link.tick; cbn [Link.chk Link.gen].
  unfold OrderedSetChecker.tick; cbn [OrderedSetChecker.adr OrderedSetChecker.count].
  rewrite Hv, He. cbn [negb andb]. split.
  - unfold OrderedSetGenerator.tick, OrderedSetGenerator.transfer; cbn [OrderedSetGenerator.adr].
    change (OrderedSetGenerator.valid os n (Link.gen s) (Link.gen_input i))
      with (OrderedSetChecker.valid (Link.wire os n s i)).
    rewrite Hv, Ha. reflexivity.
  - unfold OrderedSetChecker.detected, OrderedSetChecker.count_max. rewrite Hc.
    fold (OrderedSetGenerator.count_max os n).
    destruct (Z.eqb_spec j (OrderedSetGenerator.count_max os n - 1)); [lia |].
    cbn [negb]. apply wrap_small. lia.
Qed.

(** ** Generator and checker back to back *)

Lemma link_idle_tick (os : ordered_set) (n : Z) (i : Link.input) :
  Link.send i = false -> Link.tick os n (Link.init os n) i = Link.init os n.
Proof.
  intros Hs. unfold Link.tick, Link.init, Link.wire; simpl.
  unfold OrderedSetGenerator.tick, OrderedSetGenerator.transfer, OrderedSetGenerator.valid, OrderedSetChecker.tick,
    OrderedSetChecker.latch; simpl.
  unfold OrderedSetGenerator.done; simpl. rewrite Hs, Z.eqb_refl. simpl.
  rewrite andb_false_r. reflexivity.
Qed.

Lemma link_idle_cycles (os : ordered_set) (n : Z) (inp : nat -> Link.input)
    (t0 : nat) :
  (forall k, (k < t0)%nat -> Link.send (inp k) = false) ->
  forall k, (k <= t0)%nat -> Link.at_cycle os n inp k = Link.init os n.
Proof.
  intros Hidle k. induction k as [| k IH]; intros Hk; [reflexivity |].
  simpl. rewrite IH by lia. apply link_idle_tick. apply Hidle. lia.
Qed.

Lemma link_burst_cycles (os : ordered_set) (n : Z) (inp : nat -> Link.input)
    (t0 : nat) :
  1 < OrderedSetGenerator.count_max os n ->
  (forall k, (k < t0)%nat -> Link.send (inp k) = false) ->
  Link.send (inp t0) = true ->
  forall j : nat, Z.of_nat j <= OrderedSetGenerator.count_max os n - 1 ->
  let s := Link.at_cycle os n inp (t0 + j) in
  OrderedSetGenerator.in_burst os n (Z.of_nat j) (Link.gen s)
  /\ OrderedSetChecker.adr (Link.chk s) = OrderedSetGenerator.adr (Link.gen s)
  /\ OrderedSetChecker.count (Link.chk s) = Z.of_nat j.
Proof.
  intros Hmax Hidle Hsend j.
  pose proof (count_max_pos os n Hmax) as [Hd Hn].
  induction j as [| j IH]; intros Hj s; subst s.
  - rewrite Nat.add_0_r, (link_idle_cycles os n inp t0 Hidle) by lia.
    split; [| split; reflexivity].
    split; simpl; [symmetry; apply Z.mod_0_l; lia |].
    rewrite burst_count by lia. reflexivity.
  - replace (t0 + S j)%nat with (S (t0 + j)) by lia. simpl Link.at_cycle.
    destruct IH as (Hb & Ha & Hc); [lia |].
    destruct (link_tick_in_burst os n (Z.of_nat j)
                (Link.at_cycle os n inp (t0 + j)) (inp (t0 + j)%nat) Hmax)
      as (_ & Hb' & Ha' & Hc'); try assumption; [lia | |].
    + intros H0. replace j with 0%nat by lia.
      rewrite Nat.add_0_r. exact Hsend.
    + rewrite Nat2Z.inj_succ. unfold Z.succ. auto.
Qed.

(** C5. A generator drives a checker for the same ordered set and the same
    repeat count, both out of reset; [send] is first asserted in cycle [t0].
    No symbol is transferred before [t0], the first one is transferred in
    cycle [t0], and [detected] rises in cycle [t0 + depth*N - 1], the
    [depth*N]-th cycle counted from the first transfer, and in no earlier
    cycle. *)
Theorem round_trip_detected (os : ordered_set) (n : Z)
    (inp : nat -> Link.input) (t0 : nat) :
  1 < OrderedSetGenerator.count_max os n ->
  (forall k, (k < t0)%nat -> Link.send (inp k) = false) ->
  Link.send (inp t0) = true ->
  let last := (t0 + (Z.to_nat (OrderedSetGenerator.count_max os n) - 1))%nat in
  (forall k, (k < t0)%nat ->
     OrderedSetChecker.valid (Link.wire os n (Link.at_cycle os n inp k) (inp k)) = false)
  /\ OrderedSetChecker.valid (Link.wire os n (Link.at_cycle os n inp t0) (inp t0)) = true
  /\ (forall k, (k < last)%nat ->
        OrderedSetChecker.detected os n (Link.chk (Link.at_cycle os n inp k)) = false)
  /\ OrderedSetChecker.detected os n (Link.chk (Link.at_cycle os n inp last)) = true.
Proof.
  intros Hmax Hidle Hsend last. subst last.
  assert (Hcm : OrderedSetChecker.count_max os n = OrderedSetGenerator.count_max os n)
    by reflexivity.
  pose proof (link_burst_cycles os n inp t0 Hmax Hidle Hsend) as Hburst.
  pose proof (link_idle_cycles os n inp t0 Hidle) as Hinit.
  assert (Hdet0 : OrderedSetChecker.detected os n OrderedSetChecker.init = false).
  { unfold OrderedSetChecker.detected. cbn [OrderedSetChecker.count OrderedSetChecker.init].
    apply Z.eqb_neq. rewrite Hcm. lia. }
  split; [| split; [| split]].
  - intros k Hk. rewrite Hinit by lia. simpl.
    unfold OrderedSetGenerator.valid, OrderedSetGenerator.done; simpl.
    rewrite (Hidle k Hk), Z.eqb_refl. reflexivity.
  - rewrite Hinit by lia. simpl. unfold OrderedSetGenerator.valid; simpl.
    rewrite Hsend. reflexivity.
  - intros k Hk. destruct (Nat.le_gt_cases k t0) as [Hle | Hgt].
    + rewrite Hinit by exact Hle. exact Hdet0.
    + replace k with (t0 + (k - t0))%nat by lia.
      unfold OrderedSetChecker.detected. revert Hmax Hburst Hk. rewrite Hcm.
      generalize (OrderedSetGenerator.count_max os n). intros cm Hmax Hburst Hk.
      destruct (Hburst (k - t0)%nat) as (_ & _ & Hc); [lia |].
      rewrite Hc. apply Z.eqb_neq. lia.
  - unfold OrderedSetChecker.detected. revert Hmax Hburst. rewrite Hcm.
    generalize (OrderedSetGenerator.count_max os n). intros cm Hmax Hburst.
    destruct (Hburst (Z.to_nat cm - 1)%nat) as (_ & _ & Hc); [lia |].
    rewrite Hc. apply Z.eqb_eq. lia.
Qed.

Lemma round_trip_detected_witness :
  let inp := fun k : nat =>
    Link.Input (Nat.eqb k 2) false (Nat.even k) true in
  1 < OrderedSetGenerator.count_max TSEQ 8
  /\ (forall k, (k < 2)%nat -> Link.send (inp k) = false)
  /\ Link.send (inp 2%nat) = true
  /\ OrderedSetChecker.detected TSEQ 8 (Link.chk (Link.at_cycle TSEQ 8 inp 65)) = true.
Proof.
  intros inp.
  assert (Hidle : forall k, (k < 2)%nat -> Link.send (inp k) = false).
  { intros k Hk. destruct k as [| [| k]]; [reflexivity | reflexivity | lia]. }
  split; [reflexivity |]. split; [exact Hidle |]. split; [reflexivity |].
  apply (round_trip_detected TSEQ 8 inp 2); [reflexivity | exact Hidle | reflexivity].
Defined.

(** ** Link configuration through generator and checker *)

(** What the generator puts in bits 8 to 11 of word 1 of a training set:
    [reset] in bit 8, [loopback] in bit 9, the inverse of [scrambling] in
    bit 10, and 0 in bit 11. *)
Lemma generator_config_bits (os : ordered_set) (g : OrderedSetGenerator.state)
    (i : OrderedSetGenerator.input) :
  is_training os = true -> OrderedSetGenerator.adr g = 1 ->
  Z.testbit (OrderedSetGenerator.data os g i) 8 = OrderedSetGenerator.reset i
  /\ Z.testbit (OrderedSetGenerator.data os g i) 9 = OrderedSetGenerator.loopback i
  /\ Z.testbit (OrderedSetGenerator.data os g i) 10 = negb (OrderedSetGenerator.scrambling i)
  /\ Z.testbit (OrderedSetGenerator.data os g i) 11 = false.
Proof.
  intros Ht Ha. unfold OrderedSetGenerator.data, OrderedSetGenerator.link_config.
  rewrite Ht, Ha. simpl andb. cbv iota.
  unfold Migen.assign_slice. change (16 - 8) with 8.
  repeat split;
    rewrite Z.lor_spec, Z.ldiff_spec, andb_false_r, orb_false_l;
    destruct (OrderedSetGenerator.reset i), (OrderedSetGenerator.loopback i),
      (OrderedSetGenerator.scrambling i); reflexivity.
Qed.

(** C2 fails on the code. A generator for a training set of at least two
    words drives a checker for the same set, both out of reset, [send] first
    asserted in cycle [t0]. Once the checker has consumed word 1 of the first
    repetition it has latched the generator's [reset], but its [loopback] is
    the inverse of the generator's [scrambling] input and its [scrambling]
    is set, whatever the generator's [loopback] and [scrambling] inputs:
    the generator writes bits 8, 9 and 10 of the word, the checker reads
    bits 8, 10 and 11. *)
Theorem link_config_as_received (os : ordered_set) (n : Z)
    (inp : nat -> Link.input) (t0 : nat) :
  is_training os = true -> (2 <= mem_depth os)%nat ->
  2 < OrderedSetGenerator.count_max os n ->
  (forall k, (k < t0)%nat -> Link.send (inp k) = false) ->
  Link.send (inp t0) = true ->
  let c := Link.chk (Link.at_cycle os n inp (t0 + 2)) in
  let i := inp (t0 + 1)%nat in
  OrderedSetChecker.reset c = Link.reset i
  /\ OrderedSetChecker.loopback c = negb (Link.scrambling i)
  /\ OrderedSetChecker.scrambling c = true.
Proof.
  intros Ht Hd Hmax Hidle Hsend c i. subst c i.
  assert (Hmax' : 1 < OrderedSetGenerator.count_max os n) by lia.
  destruct (link_burst_cycles os n inp t0 Hmax' Hidle Hsend 1)
    as (Hb & Ha & _); [lia |].
  assert (Hg : OrderedSetGenerator.adr (Link.gen (Link.at_cycle os n inp (t0 + 1))) = 1).
  { destruct Hb as [Hb _]. rewrite Hb. apply Z.mod_small. lia. }
  destruct (in_burst_tick os n 1 _ (Link.gen_input (inp (t0 + 1)%nat))
              Hmax' ltac:(lia) Hb ltac:(lia) eq_refl) as [Hv _].
  destruct (generator_config_bits os _ (Link.gen_input (inp (t0 + 1)%nat))
              Ht Hg) as (H8 & _ & H10 & H11).
  replace (t0 + 2)%nat with (S (t0 + 1)) by lia. simpl Link.at_cycle.
  unfold Link.tick; cbn [Link.chk]. unfold OrderedSetChecker.tick, OrderedSetChecker.latch.
  cbn [OrderedSetChecker.reset OrderedSetChecker.loopback OrderedSetChecker.scrambling].
  unfold Link.wire; cbn [OrderedSetChecker.valid OrderedSetChecker.data].
  rewrite Ht, Hv, Ha, Hg, H8, H10, H11. repeat split.
Qed.

Lemma link_config_as_received_witness :
  let inp := fun _ : nat => Link.Input true false true true in
  let c := Link.chk (Link.at_cycle TS1 8 inp 2) in
  (is_training TS1 = true /\ (2 <= mem_depth TS1)%nat
   /\ 2 < OrderedSetGenerator.count_max TS1 8
   /\ Link.send (inp 0%nat) = true)
  /\ OrderedSetChecker.reset c = false
  /\ OrderedSetChecker.loopback c = false
  /\ OrderedSetChecker.scrambling c = true.
Proof.
  intros inp c.
  assert (Hd : (2 <= mem_depth TS1)%nat) by (vm_compute; lia).
  split; [repeat split; try reflexivity; exact Hd |].
  apply (link_config_as_received TS1 8 inp 0);
    [reflexivity | exact Hd | reflexivity | intros k Hk; lia | reflexivity].
Defined.

(** The same on the TS1 and TS2 tables, for each of the eight assignments of
    the three inputs held from reset on. *)
Lemma link_config_on_tables (r l s : bool) :
  let inp := fun _ : nat => Link.Input true r l s in
  let flags := fun os =>
    let c := Link.chk (Link.at_cycle os 8 inp 2) in
    (OrderedSetChecker.reset c, OrderedSetChecker.loopback c,
     OrderedSetChecker.scrambling c) in
  OrderedSetChecker.adr (Link.chk (Link.at_cycle TS1 8 inp 1)) = 1
  /\ flags TS1 = (r, negb s, true)
  /\ flags TS2 = (r, negb s, true).
Proof. destruct r, l, s; vm_compute; repeat split; reflexivity. Qed.

(** ** Whole repetitions *)

Lemma seq_shifted (d s len : nat) :
  seq (d + s) len = map (Nat.add d) (seq s len).
Proof.
  revert s. induction len as [| len IH]; intros s; [reflexivity |].
  simpl. f_equal. rewrite <- IH. f_equal. lia.
Qed.

Lemma map_mod_seq {A : Type} (f : nat -> A) (d reps : nat) :
  (0 < d)%nat ->
  map (fun k => f (k mod d)%nat) (seq 0 (d * reps))
  = mjoin (replicate reps (map f (seq 0 d))).
Proof.
  intros Hd. induction reps as [| reps IH].
  - rewrite Nat.mul_0_r. reflexivity.
  - replace (d * S reps)%nat with (d + d * reps)%nat by lia.
    rewrite List.seq_app, map_app. simpl. f_equal.
    + apply map_ext_in. intros k Hk. apply in_seq in Hk.
      rewrite Nat.mod_small by lia. reflexivity.
    + rewrite <- IH.
      replace (seq d (d * reps)) with (seq (d + 0) (d * reps))
        by (f_equal; lia).
      rewrite seq_shifted, map_map.
      apply map_ext. intros k.
      replace (d + k)%nat with (k + 1 * d)%nat by lia.
      rewrite Nat.Div0.mod_add. reflexivity.
Qed.

Lemma length_repetitions {A : Type} (p : list A) (reps : nat) :
  length (mjoin (replicate reps p)) = (reps * length p)%nat.
Proof.
  induction reps as [| reps IH]; [reflexivity |].
  simpl. rewrite length_app, IH. reflexivity.
Qed.

(** The symbol on the source depends on the cursor and on the link-config
    inputs only. *)
Lemma symbol_at_cursor (os : ordered_set) (g : OrderedSetGenerator.state)
    (c i : OrderedSetGenerator.input) (k : nat) :
  OrderedSetGenerator.same_config c i -> OrderedSetGenerator.adr g = Z.of_nat k ->
  (OrderedSetGenerator.data os g i, OrderedSetGenerator.ctrl os g) = OrderedSetGenerator.symbol_at os c k.
Proof.
  intros (Hr & Hl & Hs) Ha.
  unfold OrderedSetGenerator.symbol_at, OrderedSetGenerator.data, OrderedSetGenerator.ctrl,
    OrderedSetGenerator.link_config; simpl.
  rewrite Ha, Hr, Hl, Hs. reflexivity.
Qed.

Lemma transferred_in_burst (os : ordered_set) (n : Z) (c : OrderedSetGenerator.input)
    (l : list OrderedSetGenerator.input) :
  1 < OrderedSetGenerator.count_max os n ->
  Forall (fun i => OrderedSetGenerator.ready i = true /\ OrderedSetGenerator.same_config c i) l ->
  forall (j : nat) (g : OrderedSetGenerator.state),
  Z.of_nat (j + length l) <= OrderedSetGenerator.count_max os n ->
  OrderedSetGenerator.in_burst os n (Z.of_nat j) g ->
  (j = 0%nat -> exists i l', l = i :: l' /\ OrderedSetGenerator.send i = true) ->
  OrderedSetGenerator.transferred os n g l
  = map (fun k => OrderedSetGenerator.symbol_at os c (k mod mem_depth os)%nat)
        (seq j (length l))
  /\ OrderedSetGenerator.in_burst os n (Z.of_nat (j + length l))
       (OrderedSetGenerator.steps os n g l).
Proof.
  intros Hmax Hall. induction Hall as [| i l [Hr Hc] Hall IH];
    intros j g Hlen Hb Hs.
  - simpl. rewrite Nat.add_0_r. split; [reflexivity | exact Hb].
  - simpl in Hlen |- *.
    destruct (in_burst_tick os n (Z.of_nat j) g i Hmax) as [Hv Hb'];
      [lia | exact Hb | | exact Hr |].
    { intros H0. destruct Hs as (i' & l' & Heq & Hsend); [lia |].
      injection Heq as -> _. exact Hsend. }
    unfold OrderedSetGenerator.transfer. rewrite Hv, Hr. simpl.
    replace (Z.of_nat j + 1) with (Z.of_nat (S j)) in Hb' by lia.
    destruct (IH (S j) (OrderedSetGenerator.tick os n g i)) as [Ht Hb''];
      [lia | exact Hb' | intros H0; lia |].
    replace (j + S (length l))%nat with (S j + length l)%nat by lia.
    split; [| exact Hb''].
    rewrite Ht. f_equal.
    apply symbol_at_cursor; [exact Hc |].
    destruct Hb as [Ha _]. rewrite Ha.
    pose proof (count_max_pos os n Hmax) as [Hd _].
    rewrite Nat2Z.inj_mod. reflexivity.
Qed.

Lemma cursor_rule (os : ordered_set) (n : Z) (s : OrderedSetGenerator.state)
    (i : OrderedSetGenerator.input) :
  0 <= OrderedSetGenerator.adr s < Z.of_nat (mem_depth os) ->
  OrderedSetGenerator.adr (OrderedSetGenerator.tick os n s i)
  = if OrderedSetGenerator.transfer os n s i
    then (OrderedSetGenerator.adr s + 1) mod Z.of_nat (mem_depth os) else 0.
Proof.
  intros Ha. unfold OrderedSetGenerator.tick; simpl.
  destruct (OrderedSetGenerator.transfer os n s i); [| reflexivity].
  apply adr_next_spec. exact Ha.
Qed.

(** C6 as stated fails: a burst of TS1 with 8 repetitions whose consumer
    drops [ready] for one tick, the third. [done] returns after 32 ticks,
    31 symbols have been transferred, the third of them word 0 again, and
    they are not a whole number of repetitions of the pattern. *)
Lemma stalled_burst_not_whole :
  let c := OrderedSetGenerator.Input false true false false true in
  let l := map (fun k => OrderedSetGenerator.Input (Nat.eqb k 0) (negb (Nat.eqb k 2))
                           false false true) (seq 0 32) in
  let s0 := OrderedSetGenerator.init TS1 8 in
  OrderedSetGenerator.done TS1 8 s0 = true
  /\ Forall (fun k => OrderedSetGenerator.done TS1 8 (OrderedSetGenerator.steps TS1 8 s0 (take k l))
                      = false) (seq 1 31)
  /\ OrderedSetGenerator.done TS1 8 (OrderedSetGenerator.steps TS1 8 s0 l) = true
  /\ take 3 (OrderedSetGenerator.transferred TS1 8 s0 l)
     = [(0xbcbcbcbc, 15); (0x4a4a0000, 0); (0xbcbcbcbc, 15)]
  /\ ~ exists reps,
       OrderedSetGenerator.transferred TS1 8 s0 l
       = mjoin (replicate reps (OrderedSetGenerator.pattern TS1 c)).
Proof.
  intros c l s0. split; [reflexivity |]. split.
  { apply Forall_forall. intros k Hk. apply list_elem_of_In in Hk.
    vm_compute in Hk.
    repeat (destruct Hk as [<- | Hk]; [reflexivity |]). destruct Hk. }
  split; [reflexivity |]. split; [reflexivity |].
  intros [reps H]. apply (f_equal length) in H.
  rewrite length_repetitions in H.
  assert (Hl : length (OrderedSetGenerator.transferred TS1 8 s0 l) = 31%nat)
    by reflexivity.
  assert (Hp : length (OrderedSetGenerator.pattern TS1 c) = 4%nat) by reflexivity.
  rewrite Hl, Hp in H. lia.
Qed.

(** C6, amended. A burst started with [send] from a state with [done] and
    the cursor at 0, the consumer ready on each of its [depth*N] ticks and
    the link-config inputs held: the symbols transferred before [done]
    returns are exactly [N] repetitions of the pattern, [done] is false on
    every tick in between and true after the last. The counter counts
    ticks, not transfers, so nothing is promised for a consumer that drops
    [ready]. In every state with the cursor inside the pattern, the cursor
    moves to [(adr+1) mod depth] on a tick with a transfer and to 0 on any
    other tick. *)
Theorem accepted_burst_whole_repetitions (os : ordered_set) (n : Z)
    (c : OrderedSetGenerator.input) (s0 : OrderedSetGenerator.state) (i0 : OrderedSetGenerator.input)
    (l : list OrderedSetGenerator.input) :
  1 < OrderedSetGenerator.count_max os n ->
  OrderedSetGenerator.done os n s0 = true -> OrderedSetGenerator.adr s0 = 0 ->
  OrderedSetGenerator.send i0 = true ->
  length (i0 :: l) = Z.to_nat (OrderedSetGenerator.count_max os n) ->
  Forall (fun i => OrderedSetGenerator.ready i = true /\ OrderedSetGenerator.same_config c i)
         (i0 :: l) ->
  OrderedSetGenerator.transferred os n s0 (i0 :: l)
  = mjoin (replicate (Z.to_nat n) (OrderedSetGenerator.pattern os c))
  /\ (forall k, (0 < k < length (i0 :: l))%nat ->
        OrderedSetGenerator.done os n (OrderedSetGenerator.steps os n s0 (take k (i0 :: l)))
        = false)
  /\ OrderedSetGenerator.done os n (OrderedSetGenerator.steps os n s0 (i0 :: l)) = true
  /\ (forall s i, 0 <= OrderedSetGenerator.adr s < Z.of_nat (mem_depth os) ->
        OrderedSetGenerator.adr (OrderedSetGenerator.tick os n s i)
        = if OrderedSetGenerator.transfer os n s i
          then (OrderedSetGenerator.adr s + 1) mod Z.of_nat (mem_depth os) else 0).
Proof.
  intros Hmax Hdone Hadr Hsend Hlen Hall.
  pose proof (count_max_pos os n Hmax) as [Hd Hn].
  assert (Hb0 : OrderedSetGenerator.in_burst os n (Z.of_nat 0) s0).
  { split; [rewrite Hadr; symmetry; apply Z.mod_0_l; lia |].
    apply Z.eqb_eq in Hdone. rewrite Hdone, burst_count by lia.
    reflexivity. }
  split; [| split; [| split]].
  - destruct (transferred_in_burst os n c (i0 :: l) Hmax Hall 0 s0)
      as [Ht _]; [lia | exact Hb0 | eauto |].
    rewrite Ht, Hlen. unfold OrderedSetGenerator.count_max.
    rewrite Z2Nat.inj_mul, Nat2Z.id by lia.
    apply map_mod_seq. lia.
  - intros k Hk.
    destruct (transferred_in_burst os n c (take k (i0 :: l)) Hmax
                ltac:(apply Forall_take; exact Hall) 0 s0) as [_ Hb];
      [rewrite length_take; lia | exact Hb0 | |].
    { intros _. destruct k as [| k]; [lia |]. simpl. eauto. }
    rewrite length_take_le in Hb by lia.
    rewrite (in_burst_done os n (Z.of_nat (0 + k)) _ Hmax) by (lia || exact Hb).
    apply Z.eqb_neq. lia.
  - destruct (transferred_in_burst os n c (i0 :: l) Hmax Hall 0 s0)
      as [_ [_ Hc]]; [lia | exact Hb0 | eauto |].
    unfold OrderedSetGenerator.done. rewrite Hc, Hlen.
    replace (Z.of_nat (0 + Z.to_nat (OrderedSetGenerator.count_max os n)) - 1)
      with (OrderedSetGenerator.count_max os n - 1) by lia.
    rewrite Z.mod_small by lia. apply Z.eqb_refl.
  - intros s i. apply cursor_rule.
Qed.

Lemma accepted_burst_whole_repetitions_witness :
  let c := OrderedSetGenerator.Input false true true false true in
  let i0 := OrderedSetGenerator.Input true true true false true in
  let l := replicate 31 c in
  (1 < OrderedSetGenerator.count_max TS2 8
   /\ OrderedSetGenerator.done TS2 8 (OrderedSetGenerator.init TS2 8) = true
   /\ OrderedSetGenerator.adr (OrderedSetGenerator.init TS2 8) = 0
   /\ OrderedSetGenerator.send i0 = true
   /\ length (i0 :: l) = Z.to_nat (OrderedSetGenerator.count_max TS2 8)
   /\ Forall (fun i => OrderedSetGenerator.ready i = true /\ OrderedSetGenerator.same_config c i)
             (i0 :: l))
  /\ OrderedSetGenerator.transferred TS2 8 (OrderedSetGenerator.init TS2 8) (i0 :: l)
     = mjoin (replicate 8 (OrderedSetGenerator.pattern TS2 c)).
Proof.
  intros c i0 l.
  assert (Hall : Forall (fun i => OrderedSetGenerator.ready i = true
                                  /\ OrderedSetGenerator.same_config c i) (i0 :: l)).
  { constructor; [repeat split |].
    apply Forall_replicate. repeat split. }
  split; [repeat split; try reflexivity; exact Hall |].
  apply (accepted_burst_whole_repetitions TS2 8 c (OrderedSetGenerator.init TS2 8) i0 l);
    try reflexivity; exact Hall.
Defined.

(** ** The burst clock under the test's counters *)










Section Tolerances.
Local Open Scope Q_scope.








End Tolerances.




(** ** The constructor of OrderedSetUnit *)

(** C10. Whatever [serdes] is, in a namespace where [Signal] is bound and
    [SIgnal] is not, the constructor raises [NameError] for [SIgnal] at the
    declaration of [tx_ts2]: the three outputs before it are set, [tx_ts2]
    is not, and no submodule or [comb] statement has been added. *)
Theorem unit_constructor_raises (ns : OrderedSetUnit.namespace)
    (serdes : OrderedSetUnit.pyobject) :
  "Signal" ∈ OrderedSetUnit.migen_names ns ->
  "SIgnal" ∉ OrderedSetUnit.migen_names ns ->
  "SIgnal" ∉ OrderedSetUnit.builtin_names ns ->
  OrderedSetUnit.construct ns serdes
  = (OrderedSetUnit.Instance ["rx_tseq"; "rx_ts1"; "rx_ts2"] [] [],
     inl (OrderedSetUnit.NameError "SIgnal")).
Proof.
  intros Hsig Hmig Hbuiltin.
  assert (Hyes : "Signal" ∈ OrderedSetUnit.module_globals ns ∪ OrderedSetUnit.builtin_names ns).
  { unfold OrderedSetUnit.module_globals. rewrite !elem_of_union. auto. }
  assert (Hno : "SIgnal" ∉ OrderedSetUnit.module_globals ns ∪ OrderedSetUnit.builtin_names ns).
  { unfold OrderedSetUnit.module_globals.
    rewrite !elem_of_union, !elem_of_singleton.
    intros [[[H | [[[H | H] | H] | H]] | [[H | H] | H]] | H];
      solve [discriminate H | contradiction]. }
  unfold OrderedSetUnit.construct, OrderedSetUnit.init, OrderedSetUnit.bind, OrderedSetUnit.load_global.
  rewrite !decide_True by exact Hyes.
  rewrite decide_False by exact Hno.
  reflexivity.
Qed.

Lemma unit_constructor_raises_witness :
  let ns := OrderedSetUnit.Namespace {[ "Signal"; "Module"; "Memory"; "If" ]}
                           {[ "len"; "int"; "range" ]} in
  let serdes := OrderedSetUnit.PyObject {[ "source"; "sink" ]} in
  (("Signal" ∈ OrderedSetUnit.migen_names ns)
   /\ ("SIgnal" ∉ OrderedSetUnit.migen_names ns)
   /\ ("SIgnal" ∉ OrderedSetUnit.builtin_names ns))
  /\ OrderedSetUnit.construct ns serdes
     = (OrderedSetUnit.Instance ["rx_tseq"; "rx_ts1"; "rx_ts2"] [] [],
        inl (OrderedSetUnit.NameError "SIgnal")).
Proof.
  intros ns serdes.
  assert (H1 : "Signal" ∈ OrderedSetUnit.migen_names ns)
    by (apply (bool_decide_unpack _); vm_compute; exact I).
  assert (H2 : "SIgnal" ∉ OrderedSetUnit.migen_names ns)
    by (apply (bool_decide_unpack _); vm_compute; exact I).
  assert (H3 : "SIgnal" ∉ OrderedSetUnit.builtin_names ns)
    by (apply (bool_decide_unpack _); vm_compute; exact I).
  split; [repeat split; assumption |].
  apply (unit_constructor_raises ns serdes H1 H2 H3).
Defined.

(** * Further properties *)

(** ** The pattern memory *)

Lemma lookup_map_seq {A : Type} (f : nat -> A) (s n i : nat) :
  (i < n)%nat -> map f (seq s n) !! i = Some (f (s + i)%nat).
Proof.
  revert s i. induction n as [| n IH]; intros s i Hi; [lia |].
  destruct i as [| i]; simpl.
  - rewrite Nat.add_0_r. reflexivity.
  - rewrite IH by lia. f_equal. f_equal. lia.
Qed.

Lemma length_mem_init (os : ordered_set) :
  length (mem_init os) = mem_depth os.
Proof. unfold mem_init. rewrite length_map, length_seq. reflexivity. Qed.

Lemma from_bytes_little_bound (bs : list Byte.byte) :
  0 <= from_bytes_little bs < 256 ^ Z.of_nat (length bs).
Proof.
  induction bs as [| b bs IH]; [simpl; lia |].
  cbn [from_bytes_little foldr length].
  fold (from_bytes_little bs).
  rewrite Nat2Z.inj_succ, Z.pow_succ_r by lia.
  pose proof (Byte.to_N_bounded b) as Hb. lia.
Qed.

Lemma mem_word_bound (os : ordered_set) (w : Z) :
  In w (mem_init os) -> 0 <= w < 2 ^ 32.
Proof.
  unfold mem_init. intros Hw. apply in_map_iff in Hw as (i & <- & _).
  pose proof (from_bytes_little_bound (take 4 (drop (4 * i) (to_bytes os))))
    as Hb.
  assert (Hl : (length (take 4 (drop (4 * i) (to_bytes os))) <= 4)%nat)
    by (rewrite length_take; lia).
  assert (Hp : 256 ^ Z.of_nat (length (take 4 (drop (4 * i) (to_bytes os))))
               <= 256 ^ 4) by (apply Z.pow_le_mono_r; lia).
  change (256 ^ 4) with (2 ^ 32) in Hp. lia.
Qed.

Lemma dat_r_bound (os : ordered_set) (a : Z) : 0 <= dat_r os a < 2 ^ 32.
Proof.
  unfold dat_r. destruct (mem_init os !! Z.to_nat a) as [w |] eqn:Hw; simpl.
  - apply (mem_word_bound os). apply list_elem_of_In.
    apply list_elem_of_lookup. eauto.
  - lia.
Qed.

Lemma dat_r_in_range (os : ordered_set) (i : nat) :
  (i < mem_depth os)%nat ->
  dat_r os (Z.of_nat i)
  = from_bytes_little (take 4 (drop (4 * i) (to_bytes os))).
Proof.
  intros Hi. unfold dat_r, mem_init.
  rewrite Nat2Z.id, lookup_map_seq by exact Hi. reflexivity.
Qed.

(** X1. The pattern memory holds [mem_depth] words, each of them fits the
    32 bits of the memory, and so does whatever the read port returns. *)
Theorem pattern_memory_words (os : ordered_set) :
  length (mem_init os) = (length (to_bytes os) / 4)%nat
  /\ Forall (fun w => 0 <= w < 2 ^ 32) (mem_init os)
  /\ forall a, 0 <= dat_r os a < 2 ^ 32.
Proof.
  split; [apply length_mem_init |]. split.
  - apply List.Forall_forall. intros w Hw. apply (mem_word_bound os w Hw).
  - apply dat_r_bound.
Qed.

(** X2. The words are packed little-endian: byte [4*i + k] of the ordered
    set is bits [8*k] to [8*k + 7] of word [i]. *)
Theorem pattern_memory_little_endian (os : ordered_set) (i k : nat)
    (b : Byte.byte) :
  (i < mem_depth os)%nat -> (k < 4)%nat ->
  to_bytes os !! (4 * i + k)%nat = Some b ->
  Z.land (Z.shiftr (dat_r os (Z.of_nat i)) (8 * Z.of_nat k)) 0xff
  = Z.of_N (Byte.to_N b).
Proof.
  intros Hi Hk Hb. rewrite dat_r_in_range by exact Hi.
  rewrite <- lookup_drop in Hb.
  assert (Hlen : (4 <= length (drop (4 * i) (to_bytes os)))%nat).
  { rewrite length_drop. unfold mem_depth in Hi.
    pose proof (Nat.div_mod_eq (length (to_bytes os)) 4). lia. }
  destruct (drop (4 * i) (to_bytes os)) as [| b0 [| b1 [| b2 [| b3 rest]]]];
    simpl in Hlen; try lia.
  cbn [take from_bytes_little foldr].
  pose proof (Byte.to_N_bounded b0). pose proof (Byte.to_N_bounded b1).
  pose proof (Byte.to_N_bounded b2). pose proof (Byte.to_N_bounded b3).
  change 0xff with (Z.ones 8).
  rewrite Z.land_ones, Z.shiftr_div_pow2 by lia.
  destruct k as [| [| [| [| k]]]]; try lia; simpl in Hb;
    injection Hb as <-; cbn [Z.of_nat Z.mul Z.pow Z.pow_pos Pos.iter Pos.of_succ_nat Pos.succ Pos.mul];
    Z.div_mod_to_equations; lia.
Qed.

Lemma pattern_memory_little_endian_witness :
  ((1 < mem_depth TSEQ)%nat /\ (2 < 4)%nat
   /\ to_bytes TSEQ !! (4 * 1 + 2)%nat = Some Byte.xe7)
  /\ Z.land (Z.shiftr (dat_r TSEQ 1) 16) 0xff = 0xe7.
Proof.
  assert (Hd : (1 < mem_depth TSEQ)%nat) by (vm_compute; lia).
  split; [repeat split; [exact Hd | lia] |].
  apply (pattern_memory_little_endian TSEQ 1 2 Byte.xe7 Hd);
    [lia | reflexivity].
Defined.

(** X3. [len(to_bytes()) // 4] rounds down: up to three bytes after the last
    whole word are left out of the memory without any error. *)
Theorem pattern_memory_drops_partial_word (nm : string)
    (bs extra : list Byte.byte) :
  (length bs mod 4 = 0)%nat -> (length extra < 4)%nat ->
  mem_depth (OrderedSet nm (bs ++ extra)) = mem_depth (OrderedSet nm bs)
  /\ mem_init (OrderedSet nm (bs ++ extra)) = mem_init (OrderedSet nm bs).
Proof.
  intros Hbs Hex.
  assert (Hd : mem_depth (OrderedSet nm (bs ++ extra))
               = mem_depth (OrderedSet nm bs)).
  { unfold mem_depth; cbn [to_bytes]. rewrite length_app.
    pose proof (Nat.div_mod_eq (length bs) 4) as H1.
    symmetry. apply Nat.div_unique with (r := length extra); lia. }
  split; [exact Hd |].
  unfold mem_init. rewrite Hd. apply map_ext_in. intros i Hi.
  apply in_seq in Hi. cbn [to_bytes]. f_equal.
  assert (Hl : (4 * i + 4 <= length bs)%nat).
  { unfold mem_depth in Hi; cbn [to_bytes] in Hi.
    pose proof (Nat.div_mod_eq (length bs) 4). lia. }
  rewrite drop_app_le by lia. apply take_app_le.
  rewrite length_drop. lia.
Qed.

Lemma pattern_memory_drops_partial_word_witness :
  ((length (to_bytes TS1) mod 4 = 0)%nat
   /\ (length [Byte.xbc; Byte.xbc] < 4)%nat)
  /\ mem_init (OrderedSet "TS1" (to_bytes TS1 ++ [Byte.xbc; Byte.xbc]))
     = mem_init TS1.
Proof.
  split; [split; [reflexivity | simpl; lia] |].
  apply (pattern_memory_drops_partial_word "TS1" (to_bytes TS1)
           [Byte.xbc; Byte.xbc]); [reflexivity | simpl; lia].
Defined.

(** ** The checker over whole streams *)

Lemma factors_pos (d n : Z) : 0 <= d -> 0 < d * n -> 0 < d /\ 0 < n.
Proof.
  intros Hd H. destruct (Z.eq_dec d 0) as [-> | H0]; [simpl in H; lia |].
  split; [lia |].
  destruct (Z.lt_ge_cases 0 n) as [Hn | Hn]; [exact Hn |].
  pose proof (Z.mul_nonneg_nonpos _ _ Hd Hn). lia.
Qed.

Lemma checker_tick_in_range (os : ordered_set) (n : Z)
    (s : OrderedSetChecker.state) (i : OrderedSetChecker.sink) :
  0 < OrderedSetChecker.count_max os n ->
  0 <= OrderedSetChecker.adr s < Z.of_nat (mem_depth os) ->
  0 <= OrderedSetChecker.count s < OrderedSetChecker.count_max os n ->
  let s' := OrderedSetChecker.tick os n s i in
  0 <= OrderedSetChecker.adr s' < Z.of_nat (mem_depth os)
  /\ 0 <= OrderedSetChecker.count s' < OrderedSetChecker.count_max os n.
Proof.
  intros Hmax Ha Hc s'. subst s'.
  destruct (factors_pos _ _ (Nat2Z.is_nonneg (mem_depth os)) Hmax) as [Hd _].
  unfold OrderedSetChecker.tick; simpl.
  destruct (OrderedSetChecker.valid i); [| split; assumption].
  destruct (OrderedSetChecker.error os s i); simpl; [lia |].
  split.
  - rewrite adr_next_spec by exact Ha. apply Z.mod_pos_bound. exact Hd.
  - unfold OrderedSetChecker.detected.
    destruct (Z.eqb_spec (OrderedSetChecker.count s)
                (OrderedSetChecker.count_max os n - 1)); simpl; [lia |].
    rewrite wrap_small; lia.
Qed.

Lemma checker_run_in_range (os : ordered_set) (n : Z)
    (l : list OrderedSetChecker.sink) (s : OrderedSetChecker.state) :
  0 < OrderedSetChecker.count_max os n ->
  0 <= OrderedSetChecker.adr s < Z.of_nat (mem_depth os) ->
  0 <= OrderedSetChecker.count s < OrderedSetChecker.count_max os n ->
  let s' := OrderedSetChecker.run os n s l in
  0 <= OrderedSetChecker.adr s' < Z.of_nat (mem_depth os)
  /\ 0 <= OrderedSetChecker.count s' < OrderedSetChecker.count_max os n.
Proof.
  intros Hmax. revert s. induction l as [| i l IH]; intros s Ha Hc.
  - split; assumption.
  - destruct (checker_tick_in_range os n s i Hmax Ha Hc) as [Ha' Hc'].
    apply (IH _ Ha' Hc').
Qed.

(** X4. Whatever stream a checker out of reset is fed, valid or not, clean
    or corrupted, its cursor stays inside the pattern memory, so every read
    returns a stored word, and its counter stays below [depth*N]. *)
Theorem checker_registers_in_range (os : ordered_set) (n : Z)
    (l : list OrderedSetChecker.sink) :
  0 < OrderedSetChecker.count_max os n ->
  let s := OrderedSetChecker.run os n OrderedSetChecker.init l in
  0 <= OrderedSetChecker.adr s < Z.of_nat (mem_depth os)
  /\ 0 <= OrderedSetChecker.count s < OrderedSetChecker.count_max os n
  /\ mem_init os !! Z.to_nat (OrderedSetChecker.adr s)
     = Some (dat_r os (OrderedSetChecker.adr s)).
Proof.
  intros Hmax s.
  destruct (factors_pos _ _ (Nat2Z.is_nonneg (mem_depth os)) Hmax) as [Hd _].
  destruct (checker_run_in_range os n l OrderedSetChecker.init Hmax)
    as [Ha Hc]; [simpl; lia | simpl; lia |].
  fold s in Ha, Hc. split; [exact Ha |]. split; [exact Hc |].
  unfold dat_r.
  destruct (lookup_lt_is_Some_2 (mem_init os)
              (Z.to_nat (OrderedSetChecker.adr s))) as [w Hw].
  - rewrite length_mem_init. lia.
  - rewrite Hw. reflexivity.
Qed.

Lemma checker_registers_in_range_witness :
  let l := [OrderedSetChecker.Sink true 0xbcbcbcbc 15;
            OrderedSetChecker.Sink false 7 7;
            OrderedSetChecker.Sink true 0x4a4aff00 0;
            OrderedSetChecker.Sink true 0 3] in
  let s := OrderedSetChecker.run TS2 8 OrderedSetChecker.init l in
  0 < OrderedSetChecker.count_max TS2 8
  /\ 0 <= OrderedSetChecker.adr s < Z.of_nat (mem_depth TS2)
  /\ 0 <= OrderedSetChecker.count s < OrderedSetChecker.count_max TS2 8.
Proof.
  intros l s. split; [reflexivity |].
  pose proof (checker_registers_in_range TS2 8 l eq_refl) as (Ha & Hc & _).
  split; [exact Ha | exact Hc].
Defined.

Lemma checker_tick_not_valid (os : ordered_set) (n : Z)
    (s : OrderedSetChecker.state) (i : OrderedSetChecker.sink) :
  OrderedSetChecker.valid i = false -> OrderedSetChecker.tick os n s i = s.
Proof.
  intros Hv. unfold OrderedSetChecker.tick, OrderedSetChecker.latch.
  rewrite Hv, andb_false_r. destruct s; reflexivity.
Qed.

(** X5. Cycles without a valid symbol are transparent to the checker: over
    any stream it ends in the state it reaches over the valid symbols
    alone, so gaps in the stream neither break nor advance a detection. *)
Theorem checker_ignores_gaps (os : ordered_set) (n : Z)
    (l : list OrderedSetChecker.sink) (s : OrderedSetChecker.state) :
  OrderedSetChecker.run os n s l
  = OrderedSetChecker.run os n s (List.filter OrderedSetChecker.valid l).
Proof.
  revert s. induction l as [| i l IH]; intros s; [reflexivity |].
  simpl. destruct (OrderedSetChecker.valid i) eqn:Hv.
  - simpl. apply IH.
  - rewrite checker_tick_not_valid by exact Hv. apply IH.
Qed.

(** The error-free stream, symbol by symbol. *)
Lemma clean_stream_symbols (os : ordered_set) (reps : nat) :
  (0 < mem_depth os)%nat ->
  OrderedSetChecker.clean_stream os reps
  = map (fun k => OrderedSetChecker.Sink true
                    (dat_r os (Z.of_nat (k mod mem_depth os)))
                    (if decide ((k mod mem_depth os)%nat = 0%nat)
                     then first_ctrl os else 0))
        (seq 0 (mem_depth os * reps)).
Proof.
  intros Hd. unfold OrderedSetChecker.clean_stream. symmetry.
  pose (f := fun k : nat =>
               OrderedSetChecker.Sink true (dat_r os (Z.of_nat k))
                 (if decide (k = 0%nat) then first_ctrl os else 0)).
  etrans; [apply (map_mod_seq f (mem_depth os) reps Hd) |]. subst f.
  f_equal. f_equal. symmetry. apply list_eq. intros i.
  rewrite list_lookup_imap.
  destruct (Nat.lt_ge_cases i (mem_depth os)) as [Hi | Hi].
  - rewrite lookup_map_seq by exact Hi. simpl.
    destruct (lookup_lt_is_Some_2 (mem_init os) i) as [w Hw];
      [rewrite length_mem_init; exact Hi |].
    rewrite Hw. simpl. unfold dat_r. rewrite Nat2Z.id, Hw. reflexivity.
  - rewrite (lookup_ge_None_2 (mem_init os))
      by (rewrite length_mem_init; exact Hi).
    symmetry. apply lookup_ge_None_2. rewrite length_map, length_seq. exact Hi.
Qed.

Lemma clean_symbol_no_error (os : ordered_set) (s : OrderedSetChecker.state) :
  OrderedSetChecker.error os s
    (OrderedSetChecker.Sink true (dat_r os (OrderedSetChecker.adr s))
       (if OrderedSetChecker.adr s =? 0 then first_ctrl os else 0)) = false.
Proof.
  unfold OrderedSetChecker.error; simpl.
  destruct (OrderedSetChecker.adr s =? 0); simpl;
    rewrite !Z.eqb_refl; reflexivity.
Qed.

Lemma checker_run_app (os : ordered_set) (n : Z)
    (s : OrderedSetChecker.state) (l1 l2 : list OrderedSetChecker.sink) :
  OrderedSetChecker.run os n s (l1 ++ l2)
  = OrderedSetChecker.run os n (OrderedSetChecker.run os n s l1) l2.
Proof. apply foldl_app. Qed.

Lemma clean_prefix_state (os : ordered_set) (n : Z)
    (s0 : OrderedSetChecker.state) (k : nat) :
  0 < OrderedSetChecker.count_max os n ->
  OrderedSetChecker.adr s0 = 0 -> OrderedSetChecker.count s0 = 0 ->
  let s := OrderedSetChecker.run os n s0
             (map (fun k => OrderedSetChecker.Sink true
                              (dat_r os (Z.of_nat (k mod mem_depth os)))
                              (if decide ((k mod mem_depth os)%nat = 0%nat)
                               then first_ctrl os else 0))
                  (seq 0 k)) in
  OrderedSetChecker.adr s = Z.of_nat k mod Z.of_nat (mem_depth os)
  /\ OrderedSetChecker.count s
     = Z.of_nat k mod OrderedSetChecker.count_max os n.
Proof.
  intros Hmax Ha0 Hc0.
  destruct (factors_pos _ _ (Nat2Z.is_nonneg (mem_depth os)) Hmax) as [Hd _].
  induction k as [| k IH]; intros s; subst s.
  - simpl. rewrite !Z.mod_0_l by lia. split; assumption.
  - rewrite seq_S, map_app, checker_run_app.
    destruct IH as [Ha Hc].
    set (s := OrderedSetChecker.run os n s0 _) in *.
    clearbody s. cbn [map Nat.add].
    change (OrderedSetChecker.run os n s [?i])
      with (OrderedSetChecker.tick os n s i).
    assert (Hsym : OrderedSetChecker.Sink true
                     (dat_r os (Z.of_nat (k mod mem_depth os)))
                     (if decide ((k mod mem_depth os)%nat = 0%nat)
                      then first_ctrl os else 0)
                   = OrderedSetChecker.Sink true
                       (dat_r os (OrderedSetChecker.adr s))
                       (if OrderedSetChecker.adr s =? 0
                        then first_ctrl os else 0)).
    { rewrite Ha, <- Nat2Z.inj_mod. f_equal.
      destruct (decide ((k mod mem_depth os)%nat = 0%nat)) as [E | E];
        [rewrite E; reflexivity |].
      destruct (Z.eqb_spec (Z.of_nat (k mod mem_depth os)) 0); [lia |].
      reflexivity. }
    rewrite Hsym.
    pose proof (clean_symbol_no_error os s) as He.
    pose proof (Z.mod_pos_bound (Z.of_nat k) _ Hd) as Hka.
    pose proof (Z.mod_pos_bound (Z.of_nat k) _ Hmax) as Hkc.
    unfold OrderedSetChecker.tick; cbn [OrderedSetChecker.adr
      OrderedSetChecker.count OrderedSetChecker.valid].
    rewrite He. cbn [negb andb]. split.
    + rewrite adr_next_spec, Ha by (rewrite Ha; exact Hka).
      rewrite Z.add_mod_idemp_l by lia. f_equal. lia.
    + unfold OrderedSetChecker.detected. rewrite Hc.
      replace (Z.of_nat (S k)) with (Z.of_nat k + 1) by lia.
      destruct (Z.eqb_spec (Z.of_nat k mod OrderedSetChecker.count_max os n)
                  (OrderedSetChecker.count_max os n - 1)) as [E | E];
        cbn [negb].
      * rewrite <- Z.add_mod_idemp_l, E by lia.
        replace (OrderedSetChecker.count_max os n - 1 + 1)
          with (OrderedSetChecker.count_max os n) by lia.
        rewrite Z.mod_same by lia. reflexivity.
      * rewrite wrap_small by lia.
        rewrite <- Z.add_mod_idemp_l by lia.
        symmetry. apply Z.mod_small. lia.
Qed.

(** X6. On an uninterrupted error-free stream the checker counts modulo
    [depth*N]: after [k] symbols the cursor is [k mod depth] and the counter
    is [k mod (depth*N)], so [detected] is a pulse that returns once every
    [depth*N] symbols, as long as the stream goes on. *)
Theorem clean_stream_detected_periodically (os : ordered_set) (n : Z)
    (reps k : nat) :
  0 < OrderedSetChecker.count_max os n ->
  (k <= mem_depth os * reps)%nat ->
  let s := OrderedSetChecker.run os n OrderedSetChecker.init
             (take k (OrderedSetChecker.clean_stream os reps)) in
  OrderedSetChecker.adr s = Z.of_nat k mod Z.of_nat (mem_depth os)
  /\ OrderedSetChecker.count s
     = Z.of_nat k mod OrderedSetChecker.count_max os n
  /\ (OrderedSetChecker.detected os n s = true
      <-> Z.of_nat k mod OrderedSetChecker.count_max os n
          = OrderedSetChecker.count_max os n - 1).
Proof.
  intros Hmax Hk s.
  destruct (factors_pos _ _ (Nat2Z.is_nonneg (mem_depth os)) Hmax) as [Hd _].
  assert (Hs : OrderedSetChecker.adr s
               = Z.of_nat k mod Z.of_nat (mem_depth os)
               /\ OrderedSetChecker.count s
                  = Z.of_nat k mod OrderedSetChecker.count_max os n).
  { subst s. rewrite clean_stream_symbols by lia.
    rewrite firstn_map, take_seq, Nat.min_l by exact Hk.
    apply clean_prefix_state; [exact Hmax | reflexivity | reflexivity]. }
  destruct Hs as [Ha Hc]. split; [exact Ha |]. split; [exact Hc |].
  unfold OrderedSetChecker.detected. rewrite Hc. apply Z.eqb_eq.
Qed.

Lemma clean_stream_detected_periodically_witness :
  let s := OrderedSetChecker.run TSEQ 2 OrderedSetChecker.init
             (take 47 (OrderedSetChecker.clean_stream TSEQ 6)) in
  (0 < OrderedSetChecker.count_max TSEQ 2
   /\ (47 <= mem_depth TSEQ * 6)%nat)
  /\ OrderedSetChecker.detected TSEQ 2 s = true.
Proof.
  intros s.
  assert (Hk : (47 <= mem_depth TSEQ * 6)%nat) by (vm_compute; lia).
  split; [split; [reflexivity | exact Hk] |].
  apply (clean_stream_detected_periodically TSEQ 2 6 47 eq_refl Hk).
  reflexivity.
Defined.

Lemma wrap_le (w v : Z) : 0 <= w -> 0 <= v -> 0 <= Migen.wrap w v <= v.
Proof.
  intros Hw Hv. unfold Migen.wrap.
  assert (0 < 2 ^ w) by (apply Z.pow_pos_nonneg; lia).
  split; [apply Z.mod_pos_bound; lia | apply Z.mod_le; lia].
Qed.

Lemma bits_for_nonneg (n : Z) : 0 <= Migen.bits_for n.
Proof.
  unfold Migen.bits_for. destruct (0 <? n); [apply Z.log2_up_nonneg | lia].
Qed.

Lemma checker_count_growth (os : ordered_set) (n : Z)
    (l : list OrderedSetChecker.sink) (s : OrderedSetChecker.state) :
  0 <= OrderedSetChecker.count s ->
  0 <= OrderedSetChecker.count (OrderedSetChecker.run os n s l)
    <= OrderedSetChecker.count s + Z.of_nat (length l).
Proof.
  revert s. induction l as [| i l IH]; intros s Hc; [simpl; lia |].
  cbn [OrderedSetChecker.run foldl length].
  fold (OrderedSetChecker.run os n (OrderedSetChecker.tick os n s i) l).
  assert (Ht : 0 <= OrderedSetChecker.count (OrderedSetChecker.tick os n s i)
               <= OrderedSetChecker.count s + 1).
  { unfold OrderedSetChecker.tick; simpl.
    destruct (OrderedSetChecker.valid i); [| lia].
    destruct (negb (OrderedSetChecker.error os s i)
              && negb (OrderedSetChecker.detected os n s)); [| lia].
    pose proof (wrap_le (Migen.width_max (OrderedSetChecker.count_max os n))
                  (OrderedSetChecker.count s + 1)
                  (bits_for_nonneg _)). lia. }
  specialize (IH _ (proj1 Ht)). lia.
Qed.

(** X7. Detection needs contiguous error-free symbols: after a valid symbol
    that raises [error], [detected] stays low for at least the next
    [depth*N - 2] cycles, whatever the stream carries and whatever the
    state was. *)
Theorem no_detection_right_after_error (os : ordered_set) (n : Z)
    (s : OrderedSetChecker.state) (i : OrderedSetChecker.sink)
    (l : list OrderedSetChecker.sink) :
  OrderedSetChecker.valid i = true ->
  OrderedSetChecker.error os s i = true ->
  Z.of_nat (length l) < OrderedSetChecker.count_max os n - 1 ->
  OrderedSetChecker.detected os n
    (OrderedSetChecker.run os n (OrderedSetChecker.tick os n s i) l) = false.
Proof.
  intros Hv He Hl.
  assert (H0 : OrderedSetChecker.count (OrderedSetChecker.tick os n s i) = 0).
  { unfold OrderedSetChecker.tick; simpl. rewrite Hv, He. reflexivity. }
  pose proof (checker_count_growth os n l
                (OrderedSetChecker.tick os n s i)) as Hg.
  rewrite H0 in Hg. specialize (Hg ltac:(lia)).
  unfold OrderedSetChecker.detected. apply Z.eqb_neq. lia.
Qed.

Lemma no_detection_right_after_error_witness :
  let s := OrderedSetChecker.State 2 30 false false false in
  let i := OrderedSetChecker.Sink true 0x4a4a4a4b 0 in
  let l := take 30 (OrderedSetChecker.clean_stream TS1 8) in
  (OrderedSetChecker.valid i = true
   /\ OrderedSetChecker.error TS1 s i = true
   /\ Z.of_nat (length l) < OrderedSetChecker.count_max TS1 8 - 1)
  /\ OrderedSetChecker.detected TS1 8
       (OrderedSetChecker.run TS1 8 (OrderedSetChecker.tick TS1 8 s i) l)
     = false.
Proof.
  intros s i l.
  split; [repeat split; reflexivity |].
  apply (no_detection_right_after_error TS1 8 s i l); reflexivity.
Defined.

(** X8. The checker recovers from any error by itself: whatever its state,
    once a valid symbol has raised [error], an error-free stream that starts
    at word 0 on the next cycle brings [detected] up after exactly
    [depth*N - 1] symbols. *)
Theorem checker_recovers_after_error (os : ordered_set) (n : Z)
    (s : OrderedSetChecker.state) (i : OrderedSetChecker.sink) (reps : nat) :
  0 < OrderedSetChecker.count_max os n ->
  OrderedSetChecker.valid i = true ->
  OrderedSetChecker.error os s i = true ->
  (Z.to_nat (OrderedSetChecker.count_max os n - 1) <= mem_depth os * reps)%nat ->
  OrderedSetChecker.detected os n
    (OrderedSetChecker.run os n (OrderedSetChecker.tick os n s i)
       (take (Z.to_nat (OrderedSetChecker.count_max os n - 1))
             (OrderedSetChecker.clean_stream os reps))) = true.
Proof.
  intros Hmax Hv He Hk.
  destruct (factors_pos _ _ (Nat2Z.is_nonneg (mem_depth os)) Hmax) as [Hd _].
  rewrite clean_stream_symbols by lia.
  rewrite firstn_map, take_seq, Nat.min_l by exact Hk.
  destruct (clean_prefix_state os n (OrderedSetChecker.tick os n s i)
              (Z.to_nat (OrderedSetChecker.count_max os n - 1)) Hmax)
    as [_ Hc].
  - unfold OrderedSetChecker.tick; simpl. rewrite Hv, He. reflexivity.
  - unfold OrderedSetChecker.tick; simpl. rewrite Hv, He. reflexivity.
  - unfold OrderedSetChecker.detected. rewrite Hc.
    rewrite Z2Nat.id, Z.mod_small by lia. apply Z.eqb_refl.
Qed.

Lemma checker_recovers_after_error_witness :
  let s := OrderedSetChecker.State 3 17 true false true in
  let i := OrderedSetChecker.Sink true 0x4a4a4a4a 15 in
  (0 < OrderedSetChecker.count_max TS1 8
   /\ OrderedSetChecker.valid i = true
   /\ OrderedSetChecker.error TS1 s i = true
   /\ (Z.to_nat (OrderedSetChecker.count_max TS1 8 - 1)
       <= mem_depth TS1 * 8)%nat)
  /\ OrderedSetChecker.detected TS1 8
       (OrderedSetChecker.run TS1 8 (OrderedSetChecker.tick TS1 8 s i)
          (take 31 (OrderedSetChecker.clean_stream TS1 8))) = true.
Proof.
  intros s i.
  assert (Hk : (Z.to_nat (OrderedSetChecker.count_max TS1 8 - 1)
                <= mem_depth TS1 * 8)%nat) by (vm_compute; lia).
  split; [repeat split; try reflexivity; exact Hk |].
  apply (checker_recovers_after_error TS1 8 s i 8 eq_refl eq_refl eq_refl Hk).
Defined.

(** ** The generator over whole input sequences *)

Lemma generator_tick_in_range (os : ordered_set) (n : Z)
    (s : OrderedSetGenerator.state) (i : OrderedSetGenerator.input) :
  0 < OrderedSetGenerator.count_max os n ->
  0 <= OrderedSetGenerator.adr s < Z.of_nat (mem_depth os) ->
  0 <= OrderedSetGenerator.count s < OrderedSetGenerator.count_max os n ->
  (OrderedSetGenerator.done os n s = false ->
   OrderedSetGenerator.run s = true) ->
  let s' := OrderedSetGenerator.tick os n s i in
  0 <= OrderedSetGenerator.adr s' < Z.of_nat (mem_depth os)
  /\ 0 <= OrderedSetGenerator.count s' < OrderedSetGenerator.count_max os n
  /\ (OrderedSetGenerator.done os n s' = false ->
      OrderedSetGenerator.run s' = true).
Proof.
  intros Hmax Ha Hc Hr s'. subst s'.
  destruct (factors_pos _ _ (Nat2Z.is_nonneg (mem_depth os)) Hmax) as [Hd _].
  split; [| split].
  - unfold OrderedSetGenerator.tick; simpl.
    destruct (OrderedSetGenerator.transfer os n s i); [| lia].
    rewrite adr_next_spec by exact Ha. apply Z.mod_pos_bound. exact Hd.
  - unfold OrderedSetGenerator.tick; simpl.
    destruct (OrderedSetGenerator.send i && OrderedSetGenerator.done os n s);
      [lia |].
    destruct (OrderedSetGenerator.done os n s) eqn:Hdone; [exact Hc |].
    apply Z.eqb_neq in Hdone. rewrite wrap_small; lia.
  - unfold OrderedSetGenerator.done at 1.
    unfold OrderedSetGenerator.tick; simpl.
    destruct (OrderedSetGenerator.send i && OrderedSetGenerator.done os n s);
      [reflexivity |].
    destruct (OrderedSetGenerator.done os n s) eqn:Hdone.
    + unfold OrderedSetGenerator.done in Hdone. rewrite Hdone. discriminate.
    + intros _. apply Hr. reflexivity.
Qed.

(** X9. Whatever [send], [ready] and the link-config inputs do, a generator
    out of reset keeps its cursor inside the pattern memory and its counter
    below [depth*N], and [run] is set whenever a burst is under way. *)
Theorem generator_registers_in_range (os : ordered_set) (n : Z)
    (l : list OrderedSetGenerator.input) :
  0 < OrderedSetGenerator.count_max os n ->
  let s := OrderedSetGenerator.steps os n (OrderedSetGenerator.init os n) l in
  0 <= OrderedSetGenerator.adr s < Z.of_nat (mem_depth os)
  /\ 0 <= OrderedSetGenerator.count s < OrderedSetGenerator.count_max os n
  /\ (OrderedSetGenerator.done os n s = false ->
      OrderedSetGenerator.run s = true)
  /\ mem_init os !! Z.to_nat (OrderedSetGenerator.adr s)
     = Some (dat_r os (OrderedSetGenerator.adr s)).
Proof.
  intros Hmax s.
  destruct (factors_pos _ _ (Nat2Z.is_nonneg (mem_depth os)) Hmax) as [Hd _].
  assert (Hinv : forall l s0,
    0 <= OrderedSetGenerator.adr s0 < Z.of_nat (mem_depth os) ->
    0 <= OrderedSetGenerator.count s0 < OrderedSetGenerator.count_max os n ->
    (OrderedSetGenerator.done os n s0 = false ->
     OrderedSetGenerator.run s0 = true) ->
    0 <= OrderedSetGenerator.adr (OrderedSetGenerator.steps os n s0 l)
      < Z.of_nat (mem_depth os)
    /\ 0 <= OrderedSetGenerator.count (OrderedSetGenerator.steps os n s0 l)
       < OrderedSetGenerator.count_max os n
    /\ (OrderedSetGenerator.done os n (OrderedSetGenerator.steps os n s0 l)
        = false ->
        OrderedSetGenerator.run (OrderedSetGenerator.steps os n s0 l) = true)).
  { clear l s. intros l. induction l as [| i l IH]; intros s0 Ha Hc Hr.
    - repeat split; assumption || apply Ha || apply Hc.
    - destruct (generator_tick_in_range os n s0 i Hmax Ha Hc Hr)
        as (Ha' & Hc' & Hr').
      apply (IH _ Ha' Hc' Hr'). }
  destruct (Hinv l (OrderedSetGenerator.init os n)) as (Ha & Hc & Hr).
  - simpl. lia.
  - simpl. lia.
  - unfold OrderedSetGenerator.done; simpl. rewrite Z.eqb_refl. discriminate.
  - fold s in Ha, Hc, Hr. repeat split; try apply Ha; try apply Hc;
      try exact Hr.
    unfold dat_r.
    destruct (lookup_lt_is_Some_2 (mem_init os)
                (Z.to_nat (OrderedSetGenerator.adr s))) as [w Hw].
    + rewrite length_mem_init. lia.
    + rewrite Hw. reflexivity.
Qed.

Lemma generator_registers_in_range_witness :
  let l := [OrderedSetGenerator.Input true true false true false;
            OrderedSetGenerator.Input false false true true true;
            OrderedSetGenerator.Input false true false false true] in
  let s := OrderedSetGenerator.steps TS1 8 (OrderedSetGenerator.init TS1 8) l in
  0 < OrderedSetGenerator.count_max TS1 8
  /\ 0 <= OrderedSetGenerator.adr s < Z.of_nat (mem_depth TS1)
  /\ 0 <= OrderedSetGenerator.count s < OrderedSetGenerator.count_max TS1 8.
Proof.
  intros l s. split; [reflexivity |].
  pose proof (generator_registers_in_range TS1 8 l eq_refl) as (Ha & Hc & _).
  split; [exact Ha | exact Hc].
Defined.

Lemma generator_count_up (os : ordered_set) (n : Z)
    (l : list OrderedSetGenerator.input) (s : OrderedSetGenerator.state) :
  0 <= OrderedSetGenerator.count s ->
  OrderedSetGenerator.count s + Z.of_nat (length l)
    <= OrderedSetGenerator.count_max os n - 1 ->
  OrderedSetGenerator.count (OrderedSetGenerator.steps os n s l)
  = OrderedSetGenerator.count s + Z.of_nat (length l).
Proof.
  revert s. induction l as [| i l IH]; intros s H0 Hl; [simpl; lia |].
  cbn [length] in Hl. cbn [OrderedSetGenerator.steps foldl length].
  fold (OrderedSetGenerator.steps os n (OrderedSetGenerator.tick os n s i) l).
  assert (Ht : OrderedSetGenerator.count (OrderedSetGenerator.tick os n s i)
               = OrderedSetGenerator.count s + 1).
  { unfold OrderedSetGenerator.tick, OrderedSetGenerator.done; simpl.
    destruct (Z.eqb_spec (OrderedSetGenerator.count s)
                (OrderedSetGenerator.count_max os n - 1)); [lia |].
    rewrite andb_false_r. apply wrap_small. lia. }
  rewrite IH; lia.
Qed.

Lemma generator_steps_take_succ (os : ordered_set) (n : Z)
    (s : OrderedSetGenerator.state) (i : OrderedSetGenerator.input)
    (l : list OrderedSetGenerator.input) (k : nat) :
  OrderedSetGenerator.steps os n s (take (S k) (i :: l))
  = OrderedSetGenerator.steps os n (OrderedSetGenerator.tick os n s i)
      (take k l).
Proof. reflexivity. Qed.

(** X10. A burst lasts [depth*N] clock cycles whatever the consumer does:
    started by [send] on a cycle with [done], the generator keeps [done]
    low for the next [depth*N - 1] cycles and raises it after the
    [depth*N]-th, and [source.valid] is high on each of these cycles, for
    any [ready] and any later [send]. *)
Theorem burst_lasts_depth_times_n (os : ordered_set) (n : Z)
    (s0 : OrderedSetGenerator.state) (i0 : OrderedSetGenerator.input)
    (l : list OrderedSetGenerator.input) :
  OrderedSetGenerator.done os n s0 = true ->
  OrderedSetGenerator.send i0 = true ->
  Z.of_nat (length (i0 :: l)) = OrderedSetGenerator.count_max os n ->
  (forall k, (0 < k < length (i0 :: l))%nat ->
     OrderedSetGenerator.done os n
       (OrderedSetGenerator.steps os n s0 (take k (i0 :: l))) = false)
  /\ OrderedSetGenerator.done os n
       (OrderedSetGenerator.steps os n s0 (i0 :: l)) = true
  /\ (forall k i, (i0 :: l) !! k = Some i ->
        OrderedSetGenerator.valid os n
          (OrderedSetGenerator.steps os n s0 (take k (i0 :: l))) i = true).
Proof.
  intros Hdone Hsend Hlen. cbn [length] in Hlen.
  assert (H1 : OrderedSetGenerator.count (OrderedSetGenerator.tick os n s0 i0)
               = 0).
  { unfold OrderedSetGenerator.tick; simpl. rewrite Hsend, Hdone.
    reflexivity. }
  assert (Hk : forall k, (k <= length l)%nat ->
    OrderedSetGenerator.count
      (OrderedSetGenerator.steps os n s0 (take (S k) (i0 :: l)))
    = Z.of_nat k).
  { intros k Hk. rewrite generator_steps_take_succ.
    rewrite generator_count_up; rewrite H1, ?length_take; lia. }
  assert (Hmid : forall k, (0 < k < length (i0 :: l))%nat ->
    OrderedSetGenerator.done os n
      (OrderedSetGenerator.steps os n s0 (take k (i0 :: l))) = false).
  { intros k Hk0. cbn [length] in Hk0.
    destruct k as [| k]; [lia |].
    unfold OrderedSetGenerator.done. rewrite Hk by lia.
    apply Z.eqb_neq. lia. }
  split; [exact Hmid |]. split.
  - rewrite <- (firstn_all (i0 :: l)) at 1. cbn [length].
    unfold OrderedSetGenerator.done. rewrite Hk by lia.
    apply Z.eqb_eq. lia.
  - intros k i Hi. unfold OrderedSetGenerator.valid.
    destruct k as [| k].
    + simpl in Hi. injection Hi as <-. rewrite Hsend. reflexivity.
    + rewrite Hmid; [apply orb_true_r |].
      apply lookup_lt_Some in Hi. lia.
Qed.

Lemma burst_lasts_depth_times_n_witness :
  let i0 := OrderedSetGenerator.Input true false false false true in
  let l := replicate 31 (OrderedSetGenerator.Input false false true true true) in
  let s0 := OrderedSetGenerator.init TS1 8 in
  (OrderedSetGenerator.done TS1 8 s0 = true
   /\ OrderedSetGenerator.send i0 = true
   /\ Z.of_nat (length (i0 :: l)) = OrderedSetGenerator.count_max TS1 8)
  /\ OrderedSetGenerator.done TS1 8
       (OrderedSetGenerator.steps TS1 8 s0 (i0 :: l)) = true.
Proof.
  intros i0 l s0. split; [repeat split; reflexivity |].
  destruct (burst_lasts_depth_times_n TS1 8 s0 i0 l eq_refl eq_refl eq_refl)
    as (_ & H & _).
  exact H.
Defined.

(** X11. An idle generator is quiescent: from any state with [done], as long
    as [send] stays low no symbol is transferred and the counter does not
    move, so [done] stays high; after the first such cycle the cursor is at
    0 and [run] is clear. *)
Theorem idle_generator_stays_idle (os : ordered_set) (n : Z)
    (l : list OrderedSetGenerator.input) (s : OrderedSetGenerator.state) :
  OrderedSetGenerator.done os n s = true ->
  Forall (fun i => OrderedSetGenerator.send i = false) l ->
  let s' := OrderedSetGenerator.steps os n s l in
  OrderedSetGenerator.transferred os n s l = []
  /\ OrderedSetGenerator.count s' = OrderedSetGenerator.count s
  /\ OrderedSetGenerator.done os n s' = true
  /\ (l <> [] ->
      OrderedSetGenerator.adr s' = 0 /\ OrderedSetGenerator.run s' = false).
Proof.
  intros Hdone Hall. revert s Hdone.
  induction Hall as [| i l Hs Hall IH]; intros s Hdone s'; subst s'.
  - repeat split; [exact Hdone | congruence | congruence].
  - assert (Ht : OrderedSetGenerator.transfer os n s i = false).
    { unfold OrderedSetGenerator.transfer, OrderedSetGenerator.valid.
      rewrite Hs, Hdone. reflexivity. }
    assert (Hc : OrderedSetGenerator.count (OrderedSetGenerator.tick os n s i)
                 = OrderedSetGenerator.count s).
    { unfold OrderedSetGenerator.tick; simpl. rewrite Hs, Hdone.
      reflexivity. }
    assert (Hd' : OrderedSetGenerator.done os n
                    (OrderedSetGenerator.tick os n s i) = true).
    { unfold OrderedSetGenerator.done in *. rewrite Hc. exact Hdone. }
    destruct (IH _ Hd') as (Htr & Hcnt & Hdn & Hrest).
    cbn [OrderedSetGenerator.transferred OrderedSetGenerator.steps foldl].
    fold (OrderedSetGenerator.steps os n
            (OrderedSetGenerator.tick os n s i) l).
    rewrite Ht, Htr, Hcnt, Hc. repeat split; try exact Hdn.
    + destruct l as [| i' l']; [| apply Hrest; discriminate].
      unfold OrderedSetGenerator.tick; simpl. rewrite Ht. reflexivity.
    + destruct l as [| i' l']; [| apply Hrest; discriminate].
      unfold OrderedSetGenerator.tick; simpl. rewrite Hs, Hdone.
      reflexivity.
Qed.

Lemma idle_generator_stays_idle_witness :
  let l := [OrderedSetGenerator.Input false true true true true;
            OrderedSetGenerator.Input false false false true false] in
  let s := OrderedSetGenerator.State 3 31 true in
  (OrderedSetGenerator.done TS1 8 s = true
   /\ Forall (fun i => OrderedSetGenerator.send i = false) l)
  /\ OrderedSetGenerator.transferred TS1 8 s l = []
  /\ OrderedSetGenerator.adr (OrderedSetGenerator.steps TS1 8 s l) = 0.
Proof.
  intros l s.
  assert (Hall : Forall (fun i => OrderedSetGenerator.send i = false) l)
    by (repeat constructor).
  split; [split; [reflexivity | exact Hall] |].
  destruct (idle_generator_stays_idle TS1 8 l s eq_refl Hall)
    as (Ht & _ & _ & Hrest).
  split; [exact Ht |]. apply Hrest. discriminate.
Defined.

(** ** The symbols on the source *)

Lemma below_pow2 (w x : Z) :
  0 <= w -> 0 <= x -> (forall b, w <= b -> Z.testbit x b = false) ->
  x < 2 ^ w.
Proof.
  intros Hw Hx Hb. destruct (Z.eq_dec x 0) as [-> | H0].
  - apply Z.pow_pos_nonneg; lia.
  - apply Z.log2_lt_pow2; [lia |].
    destruct (Z.lt_ge_cases (Z.log2 x) w) as [Hlt | Hge]; [exact Hlt |].
    specialize (Hb _ Hge). rewrite Z.bit_log2 in Hb by lia. discriminate.
Qed.

Lemma high_bits_clear (w x b : Z) :
  0 <= x < 2 ^ w -> w <= b -> Z.testbit x b = false.
Proof.
  intros Hx Hb. destruct (Z.eq_dec x 0) as [-> | H0]; [apply Z.bits_0 |].
  apply Z.bits_above_log2; [lia |].
  apply Z.lt_le_trans with w; [| exact Hb].
  apply Z.log2_lt_pow2; lia.
Qed.

Lemma assign_slice_bound (old v : Z) :
  0 <= old < 2 ^ 32 -> 0 <= Migen.assign_slice 8 16 old v < 2 ^ 32.
Proof.
  intros Hold. unfold Migen.assign_slice. change (16 - 8) with 8.
  assert (Hnn : 0 <= Z.lor (Z.ldiff old (Z.shiftl (Z.ones 8) 8))
                       (Z.shiftl (Z.land v (Z.ones 8)) 8)).
  { apply Z.lor_nonneg. split.
    - apply Z.ldiff_nonneg. left. lia.
    - apply Z.shiftl_nonneg. apply Z.land_nonneg. right.
      change (Z.ones 8) with 255. lia. }
  split; [exact Hnn |].
  apply below_pow2; [lia | exact Hnn |].
  intros b Hb.
  rewrite Z.lor_spec, Z.ldiff_spec, !Z.shiftl_spec, Z.land_spec by lia.
  rewrite (high_bits_clear 32 old b Hold Hb).
  rewrite (Z.ones_spec_high 8 (b - 8)) by lia.
  rewrite andb_false_r. reflexivity.
Qed.

(** X12. What the generator drives always fits the stream: a 32-bit [data]
    and a 4-bit [ctrl], in every state and for every input, for every
    ordered set. *)
Theorem generator_symbol_fits (os : ordered_set)
    (s : OrderedSetGenerator.state) (i : OrderedSetGenerator.input) :
  0 <= OrderedSetGenerator.data os s i < 2 ^ 32
  /\ 0 <= OrderedSetGenerator.ctrl os s < 2 ^ 4.
Proof.
  split.
  - unfold OrderedSetGenerator.data.
    destruct (is_training os && (OrderedSetGenerator.adr s =? 1)).
    + apply assign_slice_bound. apply dat_r_bound.
    + apply dat_r_bound.
  - unfold OrderedSetGenerator.ctrl, first_ctrl.
    destruct (OrderedSetGenerator.adr s =? 0); [| simpl; lia].
    destruct (is_training os); simpl; lia.
Qed.

Lemma slice_read_back (old v : Z) :
  0 <= v < 2 ^ 8 ->
  Z.shiftr (Z.land (Migen.assign_slice 8 16 old v) 0xff00) 8 = v.
Proof.
  intros Hv. apply Z.bits_inj'. intros b Hb.
  unfold Migen.assign_slice. change (16 - 8) with 8.
  change 0xff00 with (Z.shiftl (Z.ones 8) 8).
  rewrite Z.shiftr_spec, Z.land_spec, Z.lor_spec, Z.ldiff_spec by lia.
  rewrite !Z.shiftl_spec, Z.land_spec by lia.
  replace (b + 8 - 8) with b by lia.
  destruct (Z.lt_ge_cases b 8) as [Hlt | Hge].
  - rewrite Z.ones_spec_low by lia. simpl.
    rewrite !andb_true_r, andb_false_r. reflexivity.
  - rewrite Z.ones_spec_high by lia.
    rewrite (high_bits_clear 8 v b Hv Hge), !andb_false_r. reflexivity.
Qed.

Lemma link_config_bound (os : ordered_set) (i : OrderedSetGenerator.input) :
  0 <= OrderedSetGenerator.link_config os i < 2 ^ 3.
Proof.
  unfold OrderedSetGenerator.link_config.
  destruct (is_training os); [| vm_compute; split; congruence].
  destruct (OrderedSetGenerator.reset i), (OrderedSetGenerator.loopback i),
    (OrderedSetGenerator.scrambling i); vm_compute; split; congruence.
Qed.

(** X13. The link-config inputs reach one place only. Outside bits 8 to 15
    the word on the source is the stored pattern word, in every state; the
    word is the stored one unchanged unless the set is a training set and
    the cursor is at word 1; and there bits 8 to 15 are [link_config], a
    value below 8, whatever the pattern stores in that byte. *)
Theorem link_config_confined (os : ordered_set)
    (s : OrderedSetGenerator.state) (i : OrderedSetGenerator.input) :
  Z.land (OrderedSetGenerator.data os s i) 0xffff00ff
  = Z.land (dat_r os (OrderedSetGenerator.adr s)) 0xffff00ff
  /\ (is_training os = false \/ OrderedSetGenerator.adr s <> 1 ->
      OrderedSetGenerator.data os s i = dat_r os (OrderedSetGenerator.adr s))
  /\ (is_training os = true -> OrderedSetGenerator.adr s = 1 ->
      Z.shiftr (Z.land (OrderedSetGenerator.data os s i) 0xff00) 8
      = OrderedSetGenerator.link_config os i
      /\ 0 <= OrderedSetGenerator.link_config os i < 8).
Proof.
  unfold OrderedSetGenerator.data. split; [| split].
  - destruct (is_training os && (OrderedSetGenerator.adr s =? 1));
      [apply slice_masked | reflexivity].
  - intros [Ht | Ha].
    + rewrite Ht. reflexivity.
    + apply Z.eqb_neq in Ha. rewrite Ha, andb_false_r. reflexivity.
  - intros Ht Ha. rewrite Ht, Ha. simpl andb. cbv iota.
    pose proof (link_config_bound os i) as Hb.
    split; [| exact Hb].
    apply slice_read_back. change (2 ^ 8) with 256.
    change (2 ^ 3) with 8 in Hb. lia.
Qed.

Lemma link_config_confined_witness :
  let s := OrderedSetGenerator.State 1 0 true in
  let i := OrderedSetGenerator.Input false true true true false in
  (is_training TS1 = true /\ OrderedSetGenerator.adr s = 1)
  /\ Z.shiftr (Z.land (OrderedSetGenerator.data TS1 s i) 0xff00) 8
     = OrderedSetGenerator.link_config TS1 i.
Proof.
  intros s i. split; [split; reflexivity |].
  destruct (link_config_confined TS1 s i) as (_ & _ & H).
  apply (H eq_refl eq_refl).
Defined.

(** ** A generator whose [send] is held *)

Lemma transferred_app (os : ordered_set) (n : Z)
    (l1 l2 : list OrderedSetGenerator.input) (s : OrderedSetGenerator.state) :
  OrderedSetGenerator.transferred os n s (l1 ++ l2)
  = OrderedSetGenerator.transferred os n s l1
    ++ OrderedSetGenerator.transferred os n
         (OrderedSetGenerator.steps os n s l1) l2.
Proof.
  revert s. induction l1 as [| i l1 IH]; intros s; [reflexivity |].
  cbn [app OrderedSetGenerator.transferred OrderedSetGenerator.steps foldl].
  rewrite IH, app_assoc. reflexivity.
Qed.

Lemma generator_steps_app (os : ordered_set) (n : Z)
    (l1 l2 : list OrderedSetGenerator.input) (s : OrderedSetGenerator.state) :
  OrderedSetGenerator.steps os n s (l1 ++ l2)
  = OrderedSetGenerator.steps os n (OrderedSetGenerator.steps os n s l1) l2.
Proof. apply foldl_app. Qed.

Lemma in_burst_wraps (os : ordered_set) (n : Z) (g : OrderedSetGenerator.state) :
  1 < OrderedSetGenerator.count_max os n ->
  OrderedSetGenerator.in_burst os n (OrderedSetGenerator.count_max os n) g ->
  OrderedSetGenerator.in_burst os n 0 g.
Proof.
  intros Hmax [Ha Hc]. pose proof (count_max_pos os n Hmax) as [Hd Hn].
  split.
  - rewrite Ha. unfold OrderedSetGenerator.count_max.
    rewrite Z.mul_comm, Z.mod_mul, Z.mod_0_l by lia. reflexivity.
  - rewrite Hc, Z.mod_small, burst_count by lia. reflexivity.
Qed.

Lemma held_send_one_burst (os : ordered_set) (n : Z)
    (c : OrderedSetGenerator.input) (g : OrderedSetGenerator.state) :
  1 < OrderedSetGenerator.count_max os n ->
  OrderedSetGenerator.send c = true -> OrderedSetGenerator.ready c = true ->
  OrderedSetGenerator.in_burst os n 0 g ->
  let l := replicate (Z.to_nat (OrderedSetGenerator.count_max os n)) c in
  OrderedSetGenerator.transferred os n g l
  = mjoin (replicate (Z.to_nat n) (OrderedSetGenerator.pattern os c))
  /\ OrderedSetGenerator.in_burst os n 0 (OrderedSetGenerator.steps os n g l).
Proof.
  intros Hmax Hs Hr Hb l.
  pose proof (count_max_pos os n Hmax) as [Hd Hn].
  assert (Hall : Forall (fun i => OrderedSetGenerator.ready i = true
                                  /\ OrderedSetGenerator.same_config c i) l).
  { apply Forall_replicate. repeat split. exact Hr. }
  assert (Hlen : length l = Z.to_nat (OrderedSetGenerator.count_max os n))
    by apply length_replicate.
  destruct (transferred_in_burst os n c l Hmax Hall 0 g) as [Ht Hb'].
  - rewrite Hlen. lia.
  - exact Hb.
  - intros _. subst l.
    destruct (Z.to_nat (OrderedSetGenerator.count_max os n)) as [| m] eqn:E;
      [lia |].
    simpl. eauto.
  - split.
    + rewrite Ht, Hlen. unfold OrderedSetGenerator.count_max.
      rewrite Z2Nat.inj_mul, Nat2Z.id by lia.
      apply map_mod_seq. lia.
    + apply in_burst_wraps; [exact Hmax |].
      rewrite Hlen in Hb'.
      replace (Z.of_nat (0 + Z.to_nat (OrderedSetGenerator.count_max os n)))
        with (OrderedSetGenerator.count_max os n) in Hb' by lia.
      exact Hb'.
Qed.

(** X14. With [send] and [ready] held and the link-config inputs steady, a
    generator out of reset streams the pattern without a seam: over [r]
    times [depth*N] cycles it transfers exactly [r*N] repetitions, each new
    burst starting on the cycle after the last word of the one before. *)
Theorem held_send_streams_repetitions (os : ordered_set) (n : Z)
    (c : OrderedSetGenerator.input) (r : nat) :
  1 < OrderedSetGenerator.count_max os n ->
  OrderedSetGenerator.send c = true -> OrderedSetGenerator.ready c = true ->
  OrderedSetGenerator.transferred os n (OrderedSetGenerator.init os n)
    (replicate (r * Z.to_nat (OrderedSetGenerator.count_max os n)) c)
  = mjoin (replicate (r * Z.to_nat n) (OrderedSetGenerator.pattern os c)).
Proof.
  intros Hmax Hs Hr.
  pose proof (count_max_pos os n Hmax) as [Hd Hn].
  assert (Hgen : forall g, OrderedSetGenerator.in_burst os n 0 g ->
    OrderedSetGenerator.transferred os n g
      (replicate (r * Z.to_nat (OrderedSetGenerator.count_max os n)) c)
    = mjoin (replicate (r * Z.to_nat n) (OrderedSetGenerator.pattern os c))).
  { induction r as [| r IH]; intros g Hb; [reflexivity |].
    cbn [Nat.mul]. rewrite !replicate_add, transferred_app, join_app.
    destruct (held_send_one_burst os n c g Hmax Hs Hr Hb) as [Ht Hb'].
    rewrite Ht. f_equal. apply IH. exact Hb'. }
  apply Hgen. split; simpl.
  - symmetry. apply Z.mod_0_l. lia.
  - rewrite burst_count by lia. reflexivity.
Qed.

Lemma held_send_streams_repetitions_witness :
  let c := OrderedSetGenerator.Input true true false true true in
  (1 < OrderedSetGenerator.count_max TSEQ 2
   /\ OrderedSetGenerator.send c = true /\ OrderedSetGenerator.ready c = true)
  /\ OrderedSetGenerator.transferred TSEQ 2 (OrderedSetGenerator.init TSEQ 2)
       (replicate 48 c)
     = mjoin (replicate 6 (OrderedSetGenerator.pattern TSEQ c)).
Proof.
  intros c. split; [repeat split; reflexivity |].
  apply (held_send_streams_repetitions TSEQ 2 c 3); reflexivity.
Defined.

(** ** A checker behind a generator whose [send] is held *)

Lemma link_tick_any (os : ordered_set) (n j : Z)
    (s : Link.state) (i : Link.input) :
  1 < OrderedSetGenerator.count_max os n ->
  0 <= j < OrderedSetGenerator.count_max os n ->
  OrderedSetGenerator.in_burst os n j (Link.gen s) ->
  OrderedSetChecker.adr (Link.chk s) = OrderedSetGenerator.adr (Link.gen s) ->
  OrderedSetChecker.count (Link.chk s) = j ->
  (j = 0 -> Link.send i = true) ->
  let s' := Link.tick os n s i in
  OrderedSetGenerator.in_burst os n (j + 1) (Link.gen s')
  /\ OrderedSetChecker.adr (Link.chk s')
     = OrderedSetGenerator.adr (Link.gen s')
  /\ OrderedSetChecker.count (Link.chk s')
     = (j + 1) mod OrderedSetGenerator.count_max os n.
Proof.
  intros Hmax Hj Hb Ha Hc Hs s'. subst s'.
  destruct (Z.eq_dec j (OrderedSetGenerator.count_max os n - 1)) as [E | E].
  - destruct (in_burst_tick os n j (Link.gen s) (Link.gen_input i) Hmax)
      as [Hv Hb']; [lia | exact Hb | exact Hs | reflexivity |].
    split; [exact Hb' |].
    pose proof (in_step_no_error os n (Link.gen s) (Link.chk s)
                  (Link.gen_input i) Ha) as He.
    change (OrderedSetChecker.error os (Link.chk s) (Link.wire os n s i)
            = false) in He.
    change (OrderedSetChecker.valid (Link.wire os n s i) = true) in Hv.
    unfold Link.tick; cbn [Link.chk Link.gen].
    unfold OrderedSetChecker.tick;
      cbn [OrderedSetChecker.adr OrderedSetChecker.count].
    rewrite Hv, He. cbn [negb andb]. split.
    + unfold OrderedSetGenerator.tick, OrderedSetGenerator.transfer;
        cbn [OrderedSetGenerator.adr].
      change (OrderedSetGenerator.valid os n (Link.gen s) (Link.gen_input i))
        with (OrderedSetChecker.valid (Link.wire os n s i)).
      rewrite Hv, Ha. reflexivity.
    + unfold OrderedSetChecker.detected, OrderedSetChecker.count_max.
      rewrite Hc. fold (OrderedSetGenerator.count_max os n).
      rewrite E, Z.eqb_refl. cbn [negb].
      replace (OrderedSetGenerator.count_max os n - 1 + 1)
        with (OrderedSetGenerator.count_max os n) by lia.
      rewrite Z.mod_same by lia. reflexivity.
  - destruct (link_tick_in_burst os n j s i Hmax ltac:(lia) Hb Ha Hc Hs)
      as (_ & Hb' & Ha' & Hc').
    split; [exact Hb' |]. split; [exact Ha' |].
    rewrite Hc'. symmetry. apply Z.mod_small. lia.
Qed.

Lemma link_held_send_cycles (os : ordered_set) (n : Z)
    (inp : nat -> Link.input) (k : nat) :
  1 < OrderedSetGenerator.count_max os n ->
  (forall t, Link.send (inp t) = true) ->
  let s := Link.at_cycle os n inp k in
  OrderedSetGenerator.in_burst os n
    (Z.of_nat k mod OrderedSetGenerator.count_max os n) (Link.gen s)
  /\ OrderedSetChecker.adr (Link.chk s) = OrderedSetGenerator.adr (Link.gen s)
  /\ OrderedSetChecker.count (Link.chk s)
     = Z.of_nat k mod OrderedSetGenerator.count_max os n.
Proof.
  intros Hmax Hsend.
  pose proof (count_max_pos os n Hmax) as [Hd Hn].
  induction k as [| k IH]; intros s; subst s.
  - rewrite Z.mod_0_l by lia. simpl. split; [| split; reflexivity].
    split; simpl; [symmetry; apply Z.mod_0_l; lia |].
    rewrite burst_count by lia. reflexivity.
  - destruct IH as (Hb & Ha & Hc). simpl Link.at_cycle.
    pose proof (Z.mod_pos_bound (Z.of_nat k)
                  (OrderedSetGenerator.count_max os n) ltac:(lia)) as Hk.
    destruct (link_tick_any os n _ (Link.at_cycle os n inp k) (inp k)
                Hmax Hk Hb Ha Hc (fun _ => Hsend k)) as (Hb' & Ha' & Hc').
    assert (Hmod : Z.of_nat (S k) mod OrderedSetGenerator.count_max os n
                   = (Z.of_nat k mod OrderedSetGenerator.count_max os n + 1)
                     mod OrderedSetGenerator.count_max os n).
    { rewrite Z.add_mod_idemp_l by lia. f_equal. lia. }
    rewrite Hmod. split; [| split; [exact Ha' | exact Hc']].
    destruct (Z.eq_dec (Z.of_nat k mod OrderedSetGenerator.count_max os n)
                (OrderedSetGenerator.count_max os n - 1)) as [E | E].
    + rewrite E in Hb' |- *.
      replace (OrderedSetGenerator.count_max os n - 1 + 1)
        with (OrderedSetGenerator.count_max os n) in * by lia.
      rewrite Z.mod_same by lia. apply in_burst_wraps; assumption.
    + rewrite Z.mod_small by lia. exact Hb'.
Qed.

(** X15. While [send] is held on a generator that drives a checker for the
    same set and repeat count, both out of reset, the checker raises
    [detected] in exactly the cycles [k] with [k mod (depth*N) = depth*N - 1]:
    one pulse per burst, for as long as the bursts follow one another. *)
Theorem held_send_detected_every_burst (os : ordered_set) (n : Z)
    (inp : nat -> Link.input) (k : nat) :
  1 < OrderedSetGenerator.count_max os n ->
  (forall t, Link.send (inp t) = true) ->
  OrderedSetChecker.detected os n (Link.chk (Link.at_cycle os n inp k)) = true
  <-> Z.of_nat k mod OrderedSetGenerator.count_max os n
      = OrderedSetGenerator.count_max os n - 1.
Proof.
  intros Hmax Hsend.
  destruct (link_held_send_cycles os n inp k Hmax Hsend) as (_ & _ & Hc).
  unfold OrderedSetChecker.detected. rewrite Hc. apply Z.eqb_eq.
Qed.

Lemma held_send_detected_every_burst_witness :
  let inp := fun t : nat => Link.Input true (Nat.even t) false true in
  (1 < OrderedSetGenerator.count_max TS2 2
   /\ forall t, Link.send (inp t) = true)
  /\ OrderedSetChecker.detected TS2 2 (Link.chk (Link.at_cycle TS2 2 inp 23))
     = true.
Proof.
  intros inp. split; [split; [reflexivity | intros t; reflexivity] |].
  apply (held_send_detected_every_burst TS2 2 inp 23 eq_refl
           (fun t => eq_refl)).
  reflexivity.
Defined.

(** ** The constructor of OrderedSetUnit, in any namespace *)

(** X16. The constructor cannot complete in any namespace, whatever the
    argument. Even where [SIgnal] is bound, the checker for TS1 is stored
    under the name [ts1_checher] and read back as [ts1_checker]: as long as
    no global or builtin has that name, the constructor raises before it
    has added a single [comb] statement. *)
Theorem unit_constructor_never_completes (ns : OrderedSetUnit.namespace)
    (serdes : OrderedSetUnit.pyobject) :
  "ts1_checker" ∉ OrderedSetUnit.migen_names ns ->
  "ts1_checker" ∉ OrderedSetUnit.builtin_names ns ->
  exists o e,
    OrderedSetUnit.construct ns serdes = (o, inl e)
    /\ OrderedSetUnit.comb o = [].
Proof.
  intros Hmig Hbuiltin.
  assert (Hno : "ts1_checker" ∉ OrderedSetUnit.module_globals ns
                               ∪ OrderedSetUnit.builtin_names ns).
  { unfold OrderedSetUnit.module_globals.
    rewrite !elem_of_union, !elem_of_singleton.
    intros [[[H | [[[H | H] | H] | H]] | [[H | H] | H]] | H];
      solve [discriminate H | contradiction]. }
  unfold OrderedSetUnit.construct, OrderedSetUnit.init, OrderedSetUnit.bind,
    OrderedSetUnit.load_global, OrderedSetUnit.load_attr.
  rewrite (decide_False (P := "ts1_checker" ∈ _)) by exact Hno.
  repeat (case_decide; simpl; [| eauto]).
  eauto.
Qed.

Lemma unit_constructor_never_completes_witness :
  let ns := OrderedSetUnit.Namespace
              {[ "Signal"; "SIgnal"; "Module"; "Memory"; "If" ]}
              {[ "len"; "int"; "range" ]} in
  let serdes := OrderedSetUnit.PyObject {[ "source"; "sink" ]} in
  (("ts1_checker" ∉ OrderedSetUnit.migen_names ns)
   /\ ("ts1_checker" ∉ OrderedSetUnit.builtin_names ns))
  /\ exists o e,
       OrderedSetUnit.construct ns serdes = (o, inl e)
       /\ OrderedSetUnit.comb o = [].
Proof.
  intros ns serdes.
  assert (H1 : "ts1_checker" ∉ OrderedSetUnit.migen_names ns)
    by (apply (bool_decide_unpack _); vm_compute; exact I).
  assert (H2 : "ts1_checker" ∉ OrderedSetUnit.builtin_names ns)
    by (apply (bool_decide_unpack _); vm_compute; exact I).
  split; [split; assumption |].
  apply (unit_constructor_never_completes ns serdes H1 H2).
Defined.

(** ** The counters of the burst-clock checker on any trace *)

Lemma clk_sample_idle (c : Lfps.counters) (x : Lfps.sample) :
  active x = false -> Lfps.count_sample c x = c.
Proof.
  unfold active, Lfps.count_sample. intros H. rewrite H. reflexivity.
Qed.

Lemma clk_sample_active (c : Lfps.counters) (x : Lfps.sample) :
  active x = true ->
  let c' := Lfps.count_sample c x in
  Lfps.total_ticks c' = Lfps.total_ticks c + 1
  /\ Lfps.transitions c <= Lfps.transitions c' <= Lfps.transitions c + 1
  /\ Lfps.ones_ticks c <= Lfps.ones_ticks c'
  /\ Lfps.zeroes_ticks c <= Lfps.zeroes_ticks c'.
Proof.
  unfold active, Lfps.count_sample, Lfps.total_ticks. intros H. rewrite H.
  simpl.
  destruct (negb (Lfps.tx_pattern x =? Lfps.last_pattern c)),
    (negb (Lfps.tx_pattern x =? 0)); repeat split; lia.
Qed.

Lemma clk_counts_from (l : list Lfps.sample) (c : Lfps.counters) :
  let c' := foldl Lfps.count_sample c l in
  c' = foldl Lfps.count_sample c (List.filter active l)
  /\ Lfps.total_ticks c'
     = Lfps.total_ticks c + Z.of_nat (length (List.filter active l))
  /\ Lfps.transitions c <= Lfps.transitions c'
     <= Lfps.transitions c + Z.of_nat (length (List.filter active l))
  /\ Lfps.ones_ticks c <= Lfps.ones_ticks c'
  /\ Lfps.zeroes_ticks c <= Lfps.zeroes_ticks c'.
Proof.
  revert c. induction l as [| x l IH]; intros c c'; subst c'.
  - simpl. repeat split; lia.
  - cbn [foldl List.filter].
    destruct (IH (Lfps.count_sample c x)) as (Hf & Ht & Htr & Ho & Hz).
    destruct (active x) eqn:Hx.
    + destruct (clk_sample_active c x Hx) as (Ht' & Htr' & Ho' & Hz').
      cbn [foldl length]. split; [exact Hf |]. repeat split; lia.
    + rewrite (clk_sample_idle c x Hx) in *.
      split; [exact Hf |]. repeat split; lia.
Qed.

(** X17. The burst-clock checker looks at the cycles of a burst only: on any
    trace its counters are those it has on the trace with the idle cycles
    removed, [ones_ticks + zeroes_ticks] is the number of cycles with
    [tx_idle] low, and it never counts more transitions than such cycles. *)
Theorem clk_checker_counts (l : list Lfps.sample) :
  let c := Lfps.burst_clk_checker l in
  c = Lfps.burst_clk_checker (List.filter active l)
  /\ Lfps.total_ticks c = Z.of_nat (length (List.filter active l))
  /\ 0 <= Lfps.transitions c <= Lfps.total_ticks c
  /\ 0 <= Lfps.ones_ticks c /\ 0 <= Lfps.zeroes_ticks c.
Proof.
  intros c. subst c. unfold Lfps.burst_clk_checker.
  destruct (clk_counts_from l Lfps.counters_init) as (Hf & Ht & Htr & Ho & Hz).
  set (c := foldl Lfps.count_sample Lfps.counters_init l) in *. clearbody c.
  change (Lfps.total_ticks Lfps.counters_init) with 0 in Ht.
  change (Lfps.transitions Lfps.counters_init) with 0 in Htr.
  change (Lfps.ones_ticks Lfps.counters_init) with 0 in Ho.
  change (Lfps.zeroes_ticks Lfps.counters_init) with 0 in Hz.
  split; [exact Hf |]. split; [lia |]. rewrite Ht. repeat split; lia.
Qed.




Section DutyCycle.
Local Open Scope Q_scope.


End DutyCycle.

(** ** The burst-length and polling checkers on a sequence of bursts *)












